(** * IronMQ adapter of go-msgqueue: a shallow embedding of [ironmq/queue.go]

    The Go methods of [ironmq.Queue] are written as functions in a small
    state monad.  The state is the history of calls made on the IronMQ
    client ([mq.Queue]); what the client answers is given by a [Backend],
    a family of functions of the history so far, so every statement holds
    for every behaviour of the remote service.

    Go's [error] interface is an inductive type whose constructors are the
    dynamic types that the code tells apart; a nil error is [None]. *)

From Stdlib Require Import ZArith String List Bool Lia.
Import ListNotations.

Set Warnings "-register-all".

Local Open Scope Z_scope.

(* ------------------------------------------------------------------ *)
(** ** Errors *)

(** The dynamic type of a Go [error] value.  [HTTPResponseError] is the
    only one that implements [api.HTTPResponseError]; [NetError] stands for
    a [net.Error] (its [Timeout()] flag is kept), [ErrorString] for the
    result of [errors.New] and [fmt.Errorf]. *)
Inductive error : Type :=
| HTTPResponseError (status : Z) (text : string)
| NetError (timeout : bool) (text : string)
| ErrorString (text : string).

(** [err.(api.HTTPResponseError)]: the type assertion with its [ok] flag,
    giving back [StatusCode()] and [Error()]. *)
Definition asHTTPResponseError (err : error) : option (Z * string) :=
  match err with
  | HTTPResponseError status text => Some (status, text)
  | _ => None
  end.

Definition StatusCode (v : Z * string) : Z := fst v.
Definition Error (v : Z * string) : string := snd v.

(** [strings.Contains(s, substr)]. *)
Fixpoint Contains (s substr : string) : bool :=
  match s with
  | EmptyString => prefix substr EmptyString
  | String _ rest => prefix substr s || Contains rest substr
  end.

(* ------------------------------------------------------------------ *)
(** ** The retry helper *)

Section Retry.
Context {St : Type}.

(** An operation [fn func() error] acts on some state and returns an
    error or nil. *)
Definition op : Type := St -> option error * St.

(** The test that leads to [continue] in [retry]:
    [v, ok := err.(api.HTTPResponseError); ok && v.StatusCode() >= 500]. *)
Definition retryable (err : error) : bool :=
  match asHTTPResponseError err with
  | Some v => 500 <=? StatusCode v
  | None => false
  end.

(** The loop [for i := 0; i < 3; i++] with [left] iterations to go and
    [err] the variable declared before the loop. *)
Fixpoint retry_loop (left : nat) (fn : op) (err : option error) (s : St)
  : option error * St :=
  match left with
  | O => (err, s)
  | S left' =>
      let (err', s') := fn s in
      match err' with
      | None => (None, s')
      | Some e =>
          if retryable e then retry_loop left' fn (Some e) s'
          else (Some e, s')
      end
  end.

Definition retry (fn : op) : op := retry_loop 3 fn None.
End Retry.

Arguments op St : clear implicits.

(** Instrumentation: [logged fn] behaves as [fn] and appends the outcome
    of each invocation to a journal, so that the journal after [retry]
    lists the attempts in order. *)
Definition logged {St : Type} (fn : op St) : op (St * list (option error)) :=
  fun '(s, journal) =>
    let (r, s') := fn s in (r, (s', journal ++ [r])).

(** The retry policy of the helper, relative to a predicate [transient]
    telling which errors are retried:
    - at least one and at most three invocations;
    - the result is the outcome of the last invocation;
    - every invocation that is followed by another one failed with a
      [transient] error (so a success ends the loop at once);
    - a returned error is either the third one or not [transient];
    - the journalled run returns the result and the state of the plain
      run. *)
Definition retry_policy (transient : error -> bool)
    {St : Type} (fn : op St) (s : St) : Prop :=
  let journal := snd (snd (retry (logged fn) (s, []))) in
  let res := fst (retry (logged fn) (s, [])) in
  (1 <= length journal <= 3)%nat /\
  res = last journal None /\
  (forall i, (S i < length journal)%nat ->
     exists e, nth i journal None = Some e /\ transient e = true) /\
  (forall e, res = Some e -> length journal = 3%nat \/ transient e = false) /\
  fst (retry fn s) = res /\ snd (retry fn s) = fst (snd (retry (logged fn) (s, []))).

(** The spec's class [BackendTransient]: an HTTP 5xx response or a network
    timeout. *)
Definition BackendTransient (e : error) : bool :=
  match e with
  | HTTPResponseError status _ => (500 <=? status) && (status <=? 599)
  | NetError timeout _ => timeout
  | ErrorString _ => false
  end.

(* ------------------------------------------------------------------ *)
(** ** Data model *)

(** [time.Duration] is an [int64] count of nanoseconds; [a / b] on it is
    Go's integer division, which truncates toward zero ([Z.quot]).  The
    quotient by [time.Second] of an [int64] is an [int64] again, so the
    conversions [int(...)] and [int64(...)] change nothing. *)
Definition Duration : Type := Z.
Definition Second : Duration := 1000000000.
Definition wholeSeconds (d : Duration) : Z := Z.quot d Second.

(** [mq.Message] of the IronMQ client: the fields that the adapter reads
    or writes. *)
Module mq.
Record Message : Type := {
  Id : string;
  Body : string;
  Delay : Z;
  ReservationId : string;
  ReservedCount : Z
}.
End mq.

(** [msgqueue.Message].  [Args] is Go's [[]interface{}]; an argument may
    itself be a message (that is how [msgutil.WrapMessage] wraps one). *)
Module msgqueue.
Inductive ArgOf (M : Type) : Type :=
| ArgString (s : string)
| ArgInt (z : Z)
| ArgMessage (m : M).
Arguments ArgString {M} s.
Arguments ArgInt {M} z.
Arguments ArgMessage {M} m.

Inductive Message : Type := Build_Message {
  Id : string;
  Name : string;
  Delay : Duration;
  Args : list (ArgOf Message);
  Body : string;
  ReservationId : string;
  ReservedCount : Z;
  Compress : bool
}.

(** The fields of [msgqueue.Options] that the adapter reads. *)
Record Options : Type := {
  OptName : string;
  OptCompress : bool;
  ReservationTimeout : Duration;
  WaitTimeout : Duration
}.
End msgqueue.

(** [msg.Compress = c] on a message reached through a pointer. *)
Definition setCompress (msg : msgqueue.Message) (c : bool) : msgqueue.Message :=
  {| msgqueue.Id := msgqueue.Id msg;
     msgqueue.Name := msgqueue.Name msg;
     msgqueue.Delay := msgqueue.Delay msg;
     msgqueue.Args := msgqueue.Args msg;
     msgqueue.Body := msgqueue.Body msg;
     msgqueue.ReservationId := msgqueue.ReservationId msg;
     msgqueue.ReservedCount := msgqueue.ReservedCount msg;
     msgqueue.Compress := c |}.

(* ------------------------------------------------------------------ *)
(** ** The IronMQ client as an oracle *)

(** One call on [q.q] (or on the package [mq] for queue creation). *)
Inductive Call : Type :=
| LongPoll (n reservationSecs waitSecs : Z) (delete : bool)
| ReleaseMessage (id reservationId : string) (delay : Z)
| DeleteMessage (id reservationId : string)
| DeleteReservedMessages (msgs : list mq.Message)
| ConfigCreateQueue (name : string).

Definition History : Type := list Call.

(** What the service answers to a call, given the calls made before it. *)
Record Backend : Type := {
  onLongPoll : History -> Z -> Z -> Z -> bool -> list mq.Message * option error;
  onReleaseMessage : History -> string -> string -> Z -> option error;
  onDeleteMessage : History -> string -> string -> option error;
  onDeleteReservedMessages : History -> list mq.Message -> option error;
  onConfigCreateQueue : History -> string -> option error
}.

(** Computations that call the client: a state monad on the history. *)
Definition M (A : Type) : Type := History -> A * History.

Definition ret {A : Type} (a : A) : M A := fun h => (a, h).

Definition bind {A B : Type} (m : M A) (k : A -> M B) : M B :=
  fun h => let (a, h') := m h in k a h'.

Declare Scope io_scope.
Delimit Scope io_scope with io.
Notation "x <- m ;; k" := (bind m (fun x => k))
  (at level 61, m at next level, right associativity) : io_scope.
Notation "' pat <- m ;; k" := (bind m (fun x => match x with pat => k end))
  (at level 61, pat pattern, m at next level, right associativity) : io_scope.

(** Performing a call: the oracle answers from the history, and the call
    is appended to it. *)
Definition perform {A : Type} (answer : History -> A) (c : Call) : M A :=
  fun h => (answer h, h ++ [c]).

(** The calls made by a computation started on an empty history. *)
Definition calls {A : Type} (m : M A) : History := snd (m []).

Definition bulkDeletes (h : History) : list (list mq.Message) :=
  flat_map (fun c => match c with
                     | DeleteReservedMessages msgs => [msgs]
                     | _ => []
                     end) h.

Definition longPolls (h : History) : list Call :=
  filter (fun c => match c with LongPoll _ _ _ _ => true | _ => false end) h.

(* ------------------------------------------------------------------ *)
(** ** The queue *)

(** The immutable part of [ironmq.Queue]: the client's queue name
    ([q.q.Name]) and the options ([q.opt]). *)
Record Queue : Type := {
  qName : string;
  opt : msgqueue.Options
}.

Local Open Scope io_scope.

Section QueueOperations.
Variable B : Backend.
Variable q : Queue.

Definition Options : msgqueue.Options := opt q.

(** [createQueue]: [mq.ConfigCreateQueue(mq.QueueInfo{Name: q.q.Name}, ...)]. *)
Definition createQueue : M (option error) :=
  perform (fun h => onConfigCreateQueue B h (qName q))
          (ConfigCreateQueue (qName q)).

(** The message built from an [mq.Message] in the last loop of [ReserveN];
    the fields that are not listed keep Go's zero value. *)
Definition reserved (mqMsg : mq.Message) : msgqueue.Message :=
  {| msgqueue.Id := mq.Id mqMsg;
     msgqueue.Name := EmptyString;
     msgqueue.Delay := 0;
     msgqueue.Args := [];
     msgqueue.Body := mq.Body mqMsg;
     msgqueue.ReservationId := mq.ReservationId mqMsg;
     msgqueue.ReservedCount := mq.ReservedCount mqMsg;
     msgqueue.Compress := false |}.

Definition ReserveN (n : Z) : M (list msgqueue.Message * option error) :=
  let n := if 100 <? n then 100 else n in
  let reservationSecs := wholeSeconds (msgqueue.ReservationTimeout (opt q)) in
  let waitSecs := wholeSeconds (msgqueue.WaitTimeout (opt q)) in
  '(mqMsgs, err) <-
    perform (fun h => onLongPoll B h n reservationSecs waitSecs false)
            (LongPoll n reservationSecs waitSecs false) ;;
  match err with
  | Some e =>
      match asHTTPResponseError e with
      | Some v =>
          if StatusCode v =? 404 then
            if Contains (Error v) "Message not found"%string then ret ([], None)
            else if Contains (Error v) "Queue not found"%string then
              _ <- createQueue ;; ret ([], Some e)
            else ret ([], Some e)
          else ret ([], Some e)
      | None => ret ([], Some e)
      end
  | None => ret (map reserved mqMsgs, None)
  end.

Definition Release (msg : msgqueue.Message) : M (option error) :=
  let delay := wholeSeconds (msgqueue.Delay msg) in
  retry (perform
           (fun h => onReleaseMessage B h (msgqueue.Id msg)
                       (msgqueue.ReservationId msg) delay)
           (ReleaseMessage (msgqueue.Id msg) (msgqueue.ReservationId msg) delay)).

Definition Delete (msg : msgqueue.Message) : M (option error) :=
  err <- retry (perform
                  (fun h => onDeleteMessage B h (msgqueue.Id msg)
                              (msgqueue.ReservationId msg))
                  (DeleteMessage (msgqueue.Id msg) (msgqueue.ReservationId msg))) ;;
  match err with
  | None => ret None
  | Some e =>
      match asHTTPResponseError e with
      | Some v => if StatusCode v =? 404 then ret None else ret (Some e)
      | None => ret (Some e)
      end
  end.

(** [splitDeleteBatch]; a nil slice is the empty list. *)
Definition messagesLimit : nat := 10.

Definition splitDeleteBatch (msgs : list msgqueue.Message)
  : list msgqueue.Message * list msgqueue.Message :=
  if (messagesLimit <=? length msgs)%nat then (msgs, []) else ([], msgs).

(** [msgutil.UnwrapMessage] is not part of this file of the repository:
    it is a parameter, returning Go's pair (message, error). *)
Variable UnwrapMessage : msgqueue.Message -> msgqueue.Message * option error.

(** The entry of [mqMsgs] written for an unwrapped message. *)
Definition reservedRef (msg : msgqueue.Message) : mq.Message :=
  {| mq.Id := msgqueue.Id msg;
     mq.Body := EmptyString;
     mq.Delay := 0;
     mq.ReservationId := msgqueue.ReservationId msg;
     mq.ReservedCount := 0 |}.

(** The first loop of [deleteBatch]: it leaves the function with the
    first error of [UnwrapMessage]. *)
Fixpoint unwrapBatch (msgs : list msgqueue.Message) : error + list mq.Message :=
  match msgs with
  | [] => inr []
  | msg :: rest =>
      match UnwrapMessage msg with
      | (_, Some err) => inl err
      | (msg', None) =>
          match unwrapBatch rest with
          | inl err => inl err
          | inr mqMsgs => inr (reservedRef msg' :: mqMsgs)
          end
      end
  end.

(** [deleteBatch]; [internal.Logf] only writes to the log. *)
Definition deleteBatch (msgs : list msgqueue.Message) : M (option error) :=
  if (length msgs =? 0)%nat then
    ret (Some (ErrorString "ironmq: no messages to delete"%string))
  else
    match unwrapBatch msgs with
    | inl err => ret (Some err)
    | inr mqMsgs =>
        err <- retry (perform (fun h => onDeleteReservedMessages B h mqMsgs)
                              (DeleteReservedMessages mqMsgs)) ;;
        match err with
        | Some e => ret (Some e)
        | None => ret None
        end
    end.
End QueueOperations.

(** Names for parts of the operations above. *)

(** The retried client call of [Delete]. *)
Definition deleteAttempts (B : Backend) (msg : msgqueue.Message) : M (option error) :=
  retry (perform
           (fun h => onDeleteMessage B h (msgqueue.Id msg) (msgqueue.ReservationId msg))
           (DeleteMessage (msgqueue.Id msg) (msgqueue.ReservationId msg))).

(** The count, reservation and wait that [ReserveN] passes to [LongPoll]. *)
Definition reservePoll (q : Queue) (n : Z) : Call :=
  LongPoll (Z.min n 100)
           (wholeSeconds (msgqueue.ReservationTimeout (opt q)))
           (wholeSeconds (msgqueue.WaitTimeout (opt q))) false.

Definition reserveAnswer (B : Backend) (q : Queue) (n : Z) (h : History)
  : list mq.Message * option error :=
  onLongPoll B h (Z.min n 100)
             (wholeSeconds (msgqueue.ReservationTimeout (opt q)))
             (wholeSeconds (msgqueue.WaitTimeout (opt q))) false.

(* ------------------------------------------------------------------ *)
(** ** Adding a message *)

(** [Message.EncodeArgs], [msgutil.WrapMessage] and the add-stage
    [memqueue.Queue] are not in this file of the repository; they are
    parameters.  [EncodeArgs] has a pointer receiver, so it also gives
    back the message as it leaves it. *)
Section AddStage.
Variable q : Queue.
Variable EncodeArgs :
  msgqueue.Message -> (string * option error) * msgqueue.Message.
Variable WrapMessage : msgqueue.Message -> msgqueue.Message.
Variable MemQueue : Type.
Variable memqueue_Add : MemQueue -> msgqueue.Message -> option error * MemQueue.

(** The outcome of [Add]: the returned error, the caller's message as
    [Add] leaves it, and the add-stage queue [q.addQueue]. *)
Record AddResult : Type := {
  addErr : option error;
  addMsg : msgqueue.Message;
  addQueue : MemQueue
}.

Definition Add (msg : msgqueue.Message) (aq : MemQueue) : AddResult :=
  let '((_, err), msg) := EncodeArgs msg in
  match err with
  | Some e => {| addErr := Some e; addMsg := msg; addQueue := aq |}
  | None =>
      let msg := setCompress msg (msgqueue.OptCompress (Options q)) in
      let wrapped := WrapMessage msg in
      let (err, aq') := memqueue_Add aq wrapped in
      {| addErr := err; addMsg := msg; addQueue := aq' |}
  end.
End AddStage.

Arguments addErr {MemQueue} _.
Arguments addMsg {MemQueue} _.
Arguments addQueue {MemQueue} _.

(* ------------------------------------------------------------------ *)
(** ** Closing the queue *)

(** [Processor.StopTimeout], [Batcher.SetSync] and
    [memqueue.Queue.CloseTimeout] are not in this file of the repository;
    they are parameters acting on the state [World] of the running
    system.  [q.p] is nil until [Processor()] has been called. *)
Section Closing.
Variable World : Type.
Variable Processor : Type.
Variable StopTimeout : Processor -> Duration -> World -> option error * World.
Variable SetSync : bool -> World -> World.
Variable delQueue_CloseTimeout : Duration -> World -> option error * World.

(** [if err != nil && firstErr == nil { firstErr = err }]. *)
Definition keepFirst (firstErr err : option error) : option error :=
  match err, firstErr with
  | Some e, None => Some e
  | _, _ => firstErr
  end.

Definition CloseTimeout (p : option Processor) (timeout : Duration) (w : World)
  : option error * World :=
  let firstErr : option error := None in
  let '(firstErr, w) :=
    match p with
    | Some proc =>
        let (err, w') := StopTimeout proc timeout w in
        (keepFirst firstErr err, w')
    | None => (firstErr, w)
    end in
  let w := SetSync true w in
  let (err, w) := delQueue_CloseTimeout timeout w in
  (keepFirst firstErr err, w).
End Closing.

(* ------------------------------------------------------------------ *)
(** ** The delete batcher *)

Module Batcher.
(** Modelled from the spec: [msgqueue.Batcher] (batcher.go), whose
    source is missing here.  The buffer is a sequence of pending
    messages with a timer.  [Add] appends; when the splitter releases
    messages, or in synchronous mode, the flush happens at once;
    otherwise a timer is armed.  When the timer fires the held-back tail
    is flushed whatever its size.  [SetSync true] flushes what is
    pending (the forced sync) and switches to synchronous mode, in which
    every [Add] flushes immediately.  The options are those that
    [initDelQueue] passes: handler and splitter. *)
Record BatcherOptions : Type := {
  Handler : list msgqueue.Message -> M (option error);
  Splitter : list msgqueue.Message -> list msgqueue.Message * list msgqueue.Message
}.

(** Modelled from the spec: the batcher buffer, a growable sequence of
    pending messages plus a timer, and the mode set by [SetSync]. *)
Record t : Type := {
  msgs : list msgqueue.Message;
  sync : bool;
  armed : bool
}.

Definition empty : t := {| msgs := []; sync := false; armed := false |}.

(** Modelled from the spec: a flush hands a batch to the handler; the
    batcher never flushes an empty batch. *)
Definition flush (o : BatcherOptions) (batch : list msgqueue.Message)
  : M (option error) :=
  match batch with
  | [] => ret None
  | _ :: _ => Handler o batch
  end.

(** Modelled from the spec: [Batcher.Add]. *)
Definition Add (o : BatcherOptions) (b : t) (msg : msgqueue.Message)
  : M (option error * t) :=
  let pending := msgs b ++ [msg] in
  if sync b then
    err <- flush o pending ;;
    ret (err, {| msgs := []; sync := true; armed := false |})
  else
    let (now, hold) := Splitter o pending in
    err <- flush o now ;;
    ret (err, {| msgs := hold; sync := false;
                 armed := match hold with [] => false | _ :: _ => true end |}).

(** Modelled from the spec: the armed timer fires. *)
Definition onTimeout (o : BatcherOptions) (b : t) : M (option error * t) :=
  if armed b then
    err <- flush o (msgs b) ;;
    ret (err, {| msgs := []; sync := sync b; armed := false |})
  else ret (None, b).

(** Modelled from the spec: [Batcher.SetSync].  The buffer is flushed
    on forced sync, so [SetSync true] hands the pending messages to the
    handler, whatever their number, before every later [Add] flushes at
    once; [SetSync false] only goes back to batching. *)
Definition SetSync (o : BatcherOptions) (b : t) (v : bool) : M (option error * t) :=
  if v then
    err <- flush o (msgs b) ;;
    ret (err, {| msgs := []; sync := true; armed := false |})
  else ret (None, {| msgs := msgs b; sync := false; armed := armed b |}).

(** Modelled from the spec: what happens to a batcher, one thing at a
    time: a message is added, the armed timer fires, the mode is set. *)
Inductive event : Type :=
| EvAdd (msg : msgqueue.Message)
| EvTimeout
| EvSetSync (v : bool).

Definition step (o : BatcherOptions) (b : t) (ev : event) : M t :=
  match ev with
  | EvAdd msg => r <- Add o b msg ;; ret (snd r)
  | EvTimeout => r <- onTimeout o b ;; ret (snd r)
  | EvSetSync v => r <- SetSync o b v ;; ret (snd r)
  end.

Fixpoint run (o : BatcherOptions) (b : t) (evs : list event) : M t :=
  match evs with
  | [] => ret b
  | ev :: rest => b' <- step o b ev ;; run o b' rest
  end.
End Batcher.

(** The batcher that [initDelQueue] builds: handler [q.deleteBatch],
    splitter [q.splitDeleteBatch]. *)
Definition delBatcherOptions (B : Backend)
    (UnwrapMessage : msgqueue.Message -> msgqueue.Message * option error)
  : Batcher.BatcherOptions :=
  {| Batcher.Handler := deleteBatch B UnwrapMessage;
     Batcher.Splitter := splitDeleteBatch |}.

(** No bulk delete made so far carries more than 10 messages. *)
Definition withinCap (h : History) : Prop :=
  Forall (fun batch => (length batch <= 10)%nat) (bulkDeletes h).

(** The invariant of the batcher: fewer than 10 messages are pending,
    and the history is within the cap. *)
Definition batcherInv (b : Batcher.t) (h : History) : Prop :=
  (length (Batcher.msgs b) < 10)%nat /\ withinCap h.

(* ------------------------------------------------------------------ *)
(** ** Concrete services and messages, used to run the definitions *)

Module Demo.
(** A service on which every call succeeds and no message is waiting. *)
Definition okBackend : Backend :=
  {| onLongPoll := fun _ _ _ _ _ => ([], None);
     onReleaseMessage := fun _ _ _ _ => None;
     onDeleteMessage := fun _ _ _ => None;
     onDeleteReservedMessages := fun _ _ => None;
     onConfigCreateQueue := fun _ _ => None |}.

Definition queueNotFound : error :=
  HTTPResponseError 404 "404 Not Found: Queue not found".

Definition messageNotFound : error :=
  HTTPResponseError 404 "404 Not Found: Message not found".

(** A service on which the queue does not exist until it is created:
    [LongPoll] answers 404 as long as no [ConfigCreateQueue] has been
    made. *)
Definition created (h : History) : bool :=
  existsb (fun c => match c with ConfigCreateQueue _ => true | _ => false end) h.

Definition missingQueueBackend : Backend :=
  {| onLongPoll := fun h _ _ _ _ =>
       if created h then ([], None) else ([], Some queueNotFound);
     onReleaseMessage := fun _ _ _ _ => None;
     onDeleteMessage := fun _ _ _ => None;
     onDeleteReservedMessages := fun _ _ => None;
     onConfigCreateQueue := fun _ _ => None |}.

(** A service on which every single delete finds the message gone. *)
Definition goneBackend : Backend :=
  {| onLongPoll := fun _ _ _ _ _ => ([], None);
     onReleaseMessage := fun _ _ _ _ => None;
     onDeleteMessage := fun _ _ _ => Some messageNotFound;
     onDeleteReservedMessages := fun _ _ => None;
     onConfigCreateQueue := fun _ _ => None |}.

(** A service that hands out more messages than it was asked for. *)
Definition blank : mq.Message :=
  {| mq.Id := "m"; mq.Body := ""; mq.Delay := 0;
     mq.ReservationId := "r"; mq.ReservedCount := 1 |}.

Definition generousBackend : Backend :=
  {| onLongPoll := fun _ n _ _ _ => (repeat blank (Z.to_nat n + 1), None);
     onReleaseMessage := fun _ _ _ _ => None;
     onDeleteMessage := fun _ _ _ => None;
     onDeleteReservedMessages := fun _ _ => None;
     onConfigCreateQueue := fun _ _ => None |}.

Definition theQueue : Queue :=
  {| qName := "jobs";
     opt := {| msgqueue.OptName := "jobs";
               msgqueue.OptCompress := true;
               msgqueue.ReservationTimeout := 300 * Second;
               msgqueue.WaitTimeout := 10 * Second |} |}.

Definition message (id : string) (delay : Duration) : msgqueue.Message :=
  {| msgqueue.Id := id; msgqueue.Name := ""; msgqueue.Delay := delay;
     msgqueue.Args := [msgqueue.ArgString "hello"]; msgqueue.Body := "";
     msgqueue.ReservationId := "res"; msgqueue.ReservedCount := 1;
     msgqueue.Compress := false |}.

(** A message whose argument the codec below cannot write. *)
Definition unencodable : msgqueue.Message :=
  {| msgqueue.Id := "b"; msgqueue.Name := ""; msgqueue.Delay := 0;
     msgqueue.Args := [msgqueue.ArgInt 7]; msgqueue.Body := "";
     msgqueue.ReservationId := ""; msgqueue.ReservedCount := 0;
     msgqueue.Compress := false |}.

(** A wrapper in the manner of [msgutil]: the wrapped message is the only
    argument of a new message of the same name. *)
Definition wrap (msg : msgqueue.Message) : msgqueue.Message :=
  {| msgqueue.Id := ""; msgqueue.Name := msgqueue.Name msg; msgqueue.Delay := 0;
     msgqueue.Args := [msgqueue.ArgMessage msg]; msgqueue.Body := "";
     msgqueue.ReservationId := ""; msgqueue.ReservedCount := 0;
     msgqueue.Compress := false |}.

Definition unwrap (msg : msgqueue.Message) : msgqueue.Message * option error :=
  match msgqueue.Args msg with
  | [msgqueue.ArgMessage inner] => (inner, None)
  | _ => (msg, Some (ErrorString "UnwrapMessage: wanted one *msgqueue.Message"))
  end.

(** A codec that writes strings only. *)
Fixpoint encode (args : list (msgqueue.ArgOf msgqueue.Message)) : option string :=
  match args with
  | [] => Some ""%string
  | msgqueue.ArgString s :: rest =>
      match encode rest with
      | Some body => Some (s ++ ";" ++ body)%string
      | None => None
      end
  | _ :: _ => None
  end.

Definition encodeArgs (msg : msgqueue.Message)
  : (string * option error) * msgqueue.Message :=
  match encode (msgqueue.Args msg) with
  | Some body => ((body, None), msg)
  | None => ((""%string, Some (ErrorString "codec: unsupported argument")), msg)
  end.

(** An add-stage queue that keeps the staged messages in order. *)
Definition stage (aq : list msgqueue.Message) (msg : msgqueue.Message)
  : option error * list msgqueue.Message :=
  (None, aq ++ [msg]).

(** Fifteen completed messages, wrapped as the delete stage receives
    them. *)
Definition fifteen : list msgqueue.Message :=
  map (fun i => wrap (message (String (Ascii.ascii_of_nat (65 + i)) "") 0))
      (seq 0 15).

(** An operation that always fails with a network timeout. *)
Definition alwaysTimesOut : op unit :=
  fun s => (Some (NetError true "i/o timeout"), s).

(** A system state that journals the steps of a shutdown. *)
Inductive closeStep : Type :=
| Stopped (timeout : Duration)
| Synced (v : bool)
| DelQueueClosed (timeout : Duration).

Definition stopFails (_ : unit) (timeout : Duration) (w : list closeStep)
  : option error * list closeStep :=
  (Some (ErrorString "workers did not stop"), w ++ [Stopped timeout]).

Definition setSync (v : bool) (w : list closeStep) : list closeStep :=
  w ++ [Synced v].

Definition closeFails (timeout : Duration) (w : list closeStep)
  : option error * list closeStep :=
  (Some (ErrorString "delete queue did not drain"), w ++ [DelQueueClosed timeout]).
End Demo.

(* ------------------------------------------------------------------ *)
(** ** The handler of the add stage *)

(** [q.q.PushMessage] is a parameter acting on the state [St] of the
    service and returning Go's pair (id, error); [msgutil.UnwrapMessage]
    and [Message.EncodeArgs] are parameters as above. *)
Section AddHandler.
Variable St : Type.
Variable PushMessage : mq.Message -> St -> (string * option error) * St.
Variable UnwrapMessage : msgqueue.Message -> msgqueue.Message * option error.
Variable EncodeArgs :
  msgqueue.Message -> (string * option error) * msgqueue.Message.

(** [msg.Id = id] on a message reached through a pointer. *)
Definition setId (msg : msgqueue.Message) (id : string) : msgqueue.Message :=
  {| msgqueue.Id := id;
     msgqueue.Name := msgqueue.Name msg;
     msgqueue.Delay := msgqueue.Delay msg;
     msgqueue.Args := msgqueue.Args msg;
     msgqueue.Body := msgqueue.Body msg;
     msgqueue.ReservationId := msgqueue.ReservationId msg;
     msgqueue.ReservedCount := msgqueue.ReservedCount msg;
     msgqueue.Compress := msgqueue.Compress msg |}.

(** The literal [mq.Message{Body: body, Delay: int64(msg.Delay / time.Second)}]. *)
Definition pushedMessage (body : string) (msg : msgqueue.Message) : mq.Message :=
  {| mq.Id := EmptyString;
     mq.Body := body;
     mq.Delay := wholeSeconds (msgqueue.Delay msg);
     mq.ReservationId := EmptyString;
     mq.ReservedCount := 0 |}.

(** The outcome of [add]: the returned error and the unwrapped message
    as [add] leaves it ([None] when unwrapping failed). *)
Record Handled : Type := {
  handlerErr : option error;
  unwrapped : option msgqueue.Message
}.

Definition add (msg : msgqueue.Message) (s : St) : Handled * St :=
  match UnwrapMessage msg with
  | (_, Some err) => ({| handlerErr := Some err; unwrapped := None |}, s)
  | (msg, None) =>
      let '((body, err), msg) := EncodeArgs msg in
      match err with
      | Some e => ({| handlerErr := Some e; unwrapped := Some msg |}, s)
      | None =>
          let '((id, err), s') := PushMessage (pushedMessage body msg) s in
          match err with
          | Some e => ({| handlerErr := Some e; unwrapped := Some msg |}, s')
          | None => ({| handlerErr := None; unwrapped := Some (setId msg id) |}, s')
          end
      end
  end.
End AddHandler.

(* ------------------------------------------------------------------ *)
(** ** The processor of the queue and Close *)

(** [msgqueue.NewProcessor] is a parameter; the field [q.p] is threaded
    as an [option]. *)
Module Lifecycle.
Section Lifecycle.
Variable World : Type.
Variable Proc : Type.
Variable NewProcessor : Queue -> msgqueue.Options -> World -> Proc * World.
Variable StopTimeout : Proc -> Duration -> World -> option error * World.
Variable SetSync : bool -> World -> World.
Variable delQueue_CloseTimeout : Duration -> World -> option error * World.

(** [Processor]: the returned processor, then [q.p] and the state. *)
Definition Processor (q : Queue) (p : option Proc) (w : World)
  : Proc * (option Proc * World) :=
  match p with
  | None =>
      let (proc, w') := NewProcessor q (opt q) w in
      (proc, (Some proc, w'))
  | Some proc => (proc, (Some proc, w))
  end.

(** [Close] is [CloseTimeout] with 30 seconds. *)
Definition Close (p : option Proc) (w : World) : option error * World :=
  CloseTimeout World Proc StopTimeout SetSync delQueue_CloseTimeout
               p (30 * Second) w.
End Lifecycle.
End Lifecycle.

(* ------------------------------------------------------------------ *)
(** ** The names of the two stages *)

(** The [Name] options that [initAddQueue] and [initDelQueue] build. *)
Definition addQueueName (q : Queue) : string :=
  (msgqueue.OptName (opt q) ++ "-add")%string.

Definition delQueueName (q : Queue) : string :=
  (msgqueue.OptName (opt q) ++ "-delete")%string.

(* ------------------------------------------------------------------ *)
(** ** The timing helpers of the processor tests *)

(** Arithmetic on [int64]: the result of [-] wraps around. *)
Definition wrap64 (z : Z) : Z := (z + 2 ^ 63) mod 2 ^ 64 - 2 ^ 63.

Definition inInt64 (z : Z) : Prop := - 2 ^ 63 <= z < 2 ^ 63.

(** [durEqual]: [d1 >= d2 && d2-d1 < 3*time.Second]. *)
Definition durEqual (d1 d2 : Duration) : bool :=
  (d2 <=? d1) && (wrap64 (d2 - d1) <? 3 * Second).

(** The end of [testTimings]: the loop ran through, [t.Fatalf] stopped
    it at the timing numbered [n] (from 1), or the channel had nothing
    more to deliver at that timing. *)
Inductive verdict : Type :=
| Passed
| Fatal (n : nat) (since timing : Duration)
| Blocked (n : nat).

(** The loop of [testTimings] from index [i]; [sinces] are the values
    of [tm.Sub(start)] for the times the channel delivers, in order. *)
Fixpoint testTimings_from (i : nat) (sinces timings : list Duration)
    {struct timings} : verdict :=
  match timings with
  | [] => Passed
  | timing :: timings' =>
      match sinces with
      | [] => Blocked (S i)
      | since :: sinces' =>
          if durEqual since timing then testTimings_from (S i) sinces' timings'
          else Fatal (S i) since timing
      end
  end.

Definition testTimings (sinces timings : list Duration) : verdict :=
  testTimings_from 0 sinces timings.

(* ------------------------------------------------------------------ *)
(** ** More concrete services *)

Module Cases.
(** A service that is down: every call answers 503. *)
Definition unavailable : error := HTTPResponseError 503 "503 Service Unavailable".

Definition downBackend : Backend :=
  {| onLongPoll := fun _ _ _ _ _ => ([], Some unavailable);
     onReleaseMessage := fun _ _ _ _ => Some unavailable;
     onDeleteMessage := fun _ _ _ => Some unavailable;
     onDeleteReservedMessages := fun _ _ => Some unavailable;
     onConfigCreateQueue := fun _ _ => Some unavailable |}.

(** A service whose queue is empty: the poll answers 404 "Message not
    found". *)
Definition emptyBackend : Backend :=
  {| onLongPoll := fun _ _ _ _ _ => ([], Some Demo.messageNotFound);
     onReleaseMessage := fun _ _ _ _ => Some Demo.messageNotFound;
     onDeleteMessage := fun _ _ _ => Some Demo.messageNotFound;
     onDeleteReservedMessages := fun _ _ => None;
     onConfigCreateQueue := fun _ _ => None |}.

(** A service with two messages waiting. *)
Definition first : mq.Message :=
  {| mq.Id := "id-1"; mq.Body := "b1"; mq.Delay := 0;
     mq.ReservationId := "res-1"; mq.ReservedCount := 1 |}.

Definition second : mq.Message :=
  {| mq.Id := "id-2"; mq.Body := "b2"; mq.Delay := 0;
     mq.ReservationId := "res-2"; mq.ReservedCount := 3 |}.

Definition loadedBackend : Backend :=
  {| onLongPoll := fun _ _ _ _ _ => ([first; second], None);
     onReleaseMessage := fun _ _ _ _ => None;
     onDeleteMessage := fun _ _ _ => None;
     onDeleteReservedMessages := fun _ _ => None;
     onConfigCreateQueue := fun _ _ => None |}.

(** A service that answers 503 to the first two single deletes and finds
    the message gone at the third. *)
Definition flakyBackend : Backend :=
  {| onLongPoll := fun _ _ _ _ _ => ([], None);
     onReleaseMessage := fun _ _ _ _ => None;
     onDeleteMessage := fun h _ _ =>
       if (length h <? 2)%nat then Some unavailable else Some Demo.messageNotFound;
     onDeleteReservedMessages := fun _ _ => None;
     onConfigCreateQueue := fun _ _ => None |}.


(** A queue with other options, and one whose client name differs from
    the name in its options. *)
Definition mailQueue : Queue :=
  {| qName := "mail";
     opt := {| msgqueue.OptName := "mail";
               msgqueue.OptCompress := false;
               msgqueue.ReservationTimeout := 60 * Second;
               msgqueue.WaitTimeout := 0 |} |}.

Definition shadowQueue : Queue :=
  {| qName := "jobs-add"; opt := opt Demo.theQueue |}.

(** A message that is not a wrapper, between two that are. *)
Definition mixed : list msgqueue.Message :=
  [Demo.wrap (Demo.message "a" 0); Demo.message "b" 0; Demo.unencodable].
End Cases.

(* ================================================================== *)
(** * Properties *)

(* ------------------------------------------------------------------ *)
(** ** retry *)

(** One attempt of the loop, by cases on what [fn] returns. *)
Ltac attempt fn s :=
  let e := fresh "e" in
  let s' := fresh "s" in
  let He := fresh "He" in
  destruct (fn s) as [[e|] s']; cbn;
  [ destruct (retryable e) eqn:He; cbn | ].

Ltac journal_entries :=
  match goal with
  | |- forall i : nat, _ -> exists _, _ =>
      let i := fresh "i" in
      intros i ?; destruct i as [|[|i]]; cbn in *; try lia; eauto
  | |- forall e, _ = Some e -> _ =>
      let e := fresh "e" in
      intros e [=]; subst; auto
  | _ => cbn; solve [lia | auto]
  end.

Lemma retry_policy_retryable {St : Type} (fn : op St) (s : St) :
  retry_policy retryable fn s.
Proof.
  unfold retry_policy, retry, logged; cbn.
  attempt fn s; [attempt fn s0; [attempt fn s1 | | ] | | ];
    repeat split; journal_entries.
Qed.

(** C2, as amended.  For every operation [fn] and every state, [retry]
    invokes [fn] at least once and at most 3 times, returns what the last
    invocation returned (nil as soon as one succeeds), and invokes [fn]
    again exactly after a failure that is an [api.HTTPResponseError] with
    status code >= 500, while fewer than 3 invocations were made; any
    other error, a network timeout included, is returned at once. *)
Theorem retry_retries_http_status_500_up :
  (forall (St : Type) (fn : op St) (s : St), retry_policy retryable fn s) /\
  (forall e, retryable e = true <->
             exists status text, e = HTTPResponseError status text /\ 500 <= status) /\
  (forall timeout text, retryable (NetError timeout text) = false).
Proof.
  split; [intros; apply retry_policy_retryable | split].
  - intros e; split.
    + destruct e as [status text| |]; cbn; try discriminate.
      intros H. exists status, text. split; [reflexivity | lia].
    + intros (status & text & -> & H). cbn. lia.
  - reflexivity.
Qed.

(** C2, as stated, fails: a network timeout is a backend-transient error
    in the spec's sense, yet [retry] returns it after a single invocation
    of [fn]. *)
Lemma retry_network_timeout_not_retried :
  ~ (forall (St : Type) (fn : op St) (s : St), retry_policy BackendTransient fn s).
Proof.
  intros H.
  destruct (H unit Demo.alwaysTimesOut tt) as (_ & _ & _ & Hlast & _).
  destruct (Hlast (NetError true "i/o timeout") eq_refl) as [Hlen | Htr];
    cbn in *; discriminate.
Qed.

(** The journal of that run: one invocation. *)
Example retry_network_timeout_journal :
  retry (logged Demo.alwaysTimesOut) (tt, []) =
  (Some (NetError true "i/o timeout"), (tt, [Some (NetError true "i/o timeout")])).
Proof. reflexivity. Qed.

(** A status code above the 5xx class is retried as well. *)
Example retry_status_600_journal :
  snd (snd (retry (logged (fun s : unit => (Some (HTTPResponseError 600 "600"), s)))
                  (tt, []))) =
  repeat (Some (HTTPResponseError 600 "600")) 3.
Proof. reflexivity. Qed.

(** [strings.Contains] on the texts that [ReserveN] looks for. *)
Example Contains_texts :
  Contains "404 Not Found: Queue not found" "Queue not found" = true /\
  Contains "404 Not Found: Queue not found" "Message not found" = false /\
  Contains "Queue not foun" "Queue not found" = false /\
  Contains "" "" = true.
Proof. repeat split. Qed.

(* ------------------------------------------------------------------ *)
(** ** Calls made through retry *)

(** [retry] around one client call repeats that call between one and
    three times; its result is the answer to the last one. *)
Lemma retry_perform (answer : History -> option error) (c : Call) (h : History) :
  exists k, (k < 3)%nat /\
    snd (retry (perform answer c) h) = h ++ repeat c (S k) /\
    fst (retry (perform answer c) h) = answer (h ++ repeat c k) /\
    (forall j, (j < k)%nat ->
       exists e, answer (h ++ repeat c j) = Some e /\ retryable e = true).
Proof.
  assert (forall j e0 e1,
            answer h = Some e0 -> retryable e0 = true ->
            (j < 1)%nat \/ ((j < 2)%nat /\ answer (h ++ [c]) = Some e1 /\
                             retryable e1 = true) ->
            exists e, answer (h ++ repeat c j) = Some e /\ retryable e = true) as Hprev.
  { intros j e0 e1 A0 R0 [Hj | (Hj & A1 & R1)].
    - assert (j = 0%nat) as -> by lia. cbn. rewrite app_nil_r. eauto.
    - destruct j as [|[|j]]; cbn; try lia; [rewrite app_nil_r|]; eauto. }
  unfold retry, perform; cbn.
  destruct (answer h) as [e0|] eqn:A0.
  2:{ exists 0%nat. cbn. rewrite app_nil_r. repeat split; auto; lia. }
  destruct (retryable e0) eqn:R0; cbn.
  2:{ exists 0%nat. cbn. rewrite app_nil_r. repeat split; auto; lia. }
  destruct (answer (h ++ [c])) as [e1|] eqn:A1.
  2:{ exists 1%nat. cbn. rewrite <- app_assoc. cbn. repeat split; auto; try lia.
      intros j Hj. apply (Hprev j e0 e0); auto. }
  destruct (retryable e1) eqn:R1; cbn.
  2:{ exists 1%nat. cbn. rewrite <- app_assoc. cbn. repeat split; auto; try lia.
      intros j Hj. apply (Hprev j e0 e0); auto. }
  exists 2%nat. cbn. rewrite <- !app_assoc. cbn.
  destruct (answer (h ++ [c; c])) as [e2|] eqn:A2;
    [destruct (retryable e2)|]; cbn; rewrite <- ?app_assoc; cbn;
    (repeat split; auto; try lia;
     intros j Hj; apply (Hprev j e0 e1); auto).
Qed.

(* ------------------------------------------------------------------ *)
(** ** splitDeleteBatch and deleteBatch *)

(** The two cases of the splitter. *)
Lemma splitDeleteBatch_cases (msgs : list msgqueue.Message) :
  ((length msgs < 10)%nat /\ splitDeleteBatch msgs = ([], msgs)) \/
  ((10 <= length msgs)%nat /\ splitDeleteBatch msgs = (msgs, [])).
Proof.
  unfold splitDeleteBatch, messagesLimit.
  destruct (10 <=? length msgs)%nat eqn:Hlen.
  - apply Nat.leb_le in Hlen. now right.
  - apply Nat.leb_gt in Hlen. now left.
Qed.

(** C4.  The splitter returns a partition of its input: the two parts put
    together are the input; below 10 messages everything is held back and
    nothing is flushed, from 10 messages on everything is flushed and
    nothing is held back. *)
Theorem splitDeleteBatch_partition (msgs : list msgqueue.Message) :
  fst (splitDeleteBatch msgs) ++ snd (splitDeleteBatch msgs) = msgs /\
  ((length msgs < 10)%nat ->
     fst (splitDeleteBatch msgs) = [] /\ snd (splitDeleteBatch msgs) = msgs) /\
  ((10 <= length msgs)%nat ->
     fst (splitDeleteBatch msgs) = msgs /\ snd (splitDeleteBatch msgs) = []).
Proof.
  destruct (splitDeleteBatch_cases msgs) as [[Hlen ->] | [Hlen ->]]; cbn;
    rewrite ?app_nil_r; repeat split; auto; lia.
Qed.

Lemma splitDeleteBatch_partition_witness :
  ((length (firstn 9 Demo.fifteen) < 10)%nat /\
   splitDeleteBatch (firstn 9 Demo.fifteen) = ([], firstn 9 Demo.fifteen)) /\
  ((10 <= length Demo.fifteen)%nat /\
   splitDeleteBatch Demo.fifteen = (Demo.fifteen, [])).
Proof.
  split; split.
  - cbn; lia.
  - destruct (splitDeleteBatch_partition (firstn 9 Demo.fifteen)) as (_ & Hlt & _).
    destruct Hlt as [H1 H2]; [cbn; lia|].
    rewrite (surjective_pairing (splitDeleteBatch _)), H1, H2. reflexivity.
  - cbn; lia.
  - destruct (splitDeleteBatch_partition Demo.fifteen) as (_ & _ & Hge).
    destruct Hge as [H1 H2]; [cbn; lia|].
    rewrite (surjective_pairing (splitDeleteBatch _)), H1, H2. reflexivity.
Defined.

(** C8.  Handed an empty slice, [deleteBatch] returns the error
    "ironmq: no messages to delete" and makes no call on the client: the
    history is the one it started from. *)
Theorem deleteBatch_empty (B : Backend)
    (UnwrapMessage : msgqueue.Message -> msgqueue.Message * option error)
    (h : History) :
  deleteBatch B UnwrapMessage [] h =
    (Some (ErrorString "ironmq: no messages to delete"), h) /\
  fst (deleteBatch B UnwrapMessage [] h) <> None /\
  bulkDeletes (calls (deleteBatch B UnwrapMessage [])) = [].
Proof.
  repeat split. discriminate.
Qed.

(** When every message unwraps, the loop of [deleteBatch] produces one
    entry per message. *)
Lemma unwrapBatch_length UnwrapMessage msgs mqMsgs :
  unwrapBatch UnwrapMessage msgs = inr mqMsgs -> length mqMsgs = length msgs.
Proof.
  revert mqMsgs; induction msgs as [|msg rest IH]; cbn; intros mqMsgs.
  - intros [= <-]. reflexivity.
  - destruct (UnwrapMessage msg) as [msg' [err|]]; [discriminate|].
    destruct (unwrapBatch UnwrapMessage rest) as [err|l]; [discriminate|].
    intros [= <-]. cbn. f_equal. now apply IH.
Qed.

(** The calls of [deleteBatch]: none, or the same bulk delete, carrying
    one entry per message, between one and three times. *)
Lemma deleteBatch_history B UnwrapMessage msgs h :
  snd (deleteBatch B UnwrapMessage msgs h) = h \/
  exists mqMsgs k, (k < 3)%nat /\
    unwrapBatch UnwrapMessage msgs = inr mqMsgs /\
    snd (deleteBatch B UnwrapMessage msgs h) =
      h ++ repeat (DeleteReservedMessages mqMsgs) (S k).
Proof.
  unfold deleteBatch.
  destruct (length msgs =? 0)%nat; [now left|].
  destruct (unwrapBatch UnwrapMessage msgs) as [err|mqMsgs] eqn:Hu; [now left|].
  right.
  destruct (retry_perform (fun h => onDeleteReservedMessages B h mqMsgs)
              (DeleteReservedMessages mqMsgs) h) as (k & Hk & Hsnd & _).
  exists mqMsgs, k. repeat split; auto.
  unfold bind.
  destruct (retry _ h) as [[e|] h'] eqn:Hr; cbn in *; exact Hsnd.
Qed.

(* ------------------------------------------------------------------ *)
(** ** Delete and Release *)

(** C5.  When the retried backend delete ends with the error [e],
    [Delete] returns nil if and only if [e] is an HTTP response error of
    status 404, and returns [e] itself otherwise; it makes no call beyond
    those of the retried delete. *)
Theorem Delete_swallows_404 (B : Backend) (msg : msgqueue.Message)
    (h : History) (e : error) :
  fst (deleteAttempts B msg h) = Some e ->
  (fst (Delete B msg h) = None <-> exists text, e = HTTPResponseError 404 text) /\
  (fst (Delete B msg h) = Some e <-> ~ exists text, e = HTTPResponseError 404 text) /\
  snd (Delete B msg h) = snd (deleteAttempts B msg h).
Proof.
  unfold Delete, deleteAttempts, bind.
  destruct (retry _ h) as [r h'] eqn:Hr; cbn. intros ->.
  destruct e as [status text|timeout text|text]; cbn.
  - destruct (status =? 404) eqn:Hs; cbn.
    + apply Z.eqb_eq in Hs; subst status.
      repeat split; auto; try discriminate; eauto.
      intros H; contradict H; eauto.
    + apply Z.eqb_neq in Hs.
      repeat split; auto; try discriminate.
      * intros (t & [= ? ?]); contradiction.
      * intros _ (t & [= ? ?]); contradiction.
  - repeat split; auto; try discriminate;
      [intros (t & [=]) | intros _ (t & [=])].
  - repeat split; auto; try discriminate;
      [intros (t & [=]) | intros _ (t & [=])].
Qed.

Lemma Delete_swallows_404_witness :
  fst (deleteAttempts Demo.goneBackend (Demo.message "a" 0) []) =
    Some Demo.messageNotFound /\
  fst (Delete Demo.goneBackend (Demo.message "a" 0) []) = None.
Proof.
  split; [reflexivity|].
  apply (Delete_swallows_404 Demo.goneBackend (Demo.message "a" 0) []
           Demo.messageNotFound eq_refl).
  eexists; reflexivity.
Defined.

(** A successful delete is a success of [Delete] too. *)
Lemma Delete_success (B : Backend) (msg : msgqueue.Message) (h : History) :
  fst (deleteAttempts B msg h) = None -> fst (Delete B msg h) = None.
Proof.
  unfold Delete, deleteAttempts, bind.
  destruct (retry _ h) as [r h']; cbn. now intros ->.
Qed.

(** Truncation toward zero: the whole seconds of a duration. *)
Lemma wholeSeconds_bounds (d : Duration) :
  0 <= d -> wholeSeconds d * Second <= d < wholeSeconds d * Second + Second.
Proof.
  intros Hd. unfold wholeSeconds.
  rewrite Z.quot_div_nonneg by (unfold Second; lia).
  pose proof (Z.div_mod d Second ltac:(unfold Second; lia)) as Hdm.
  pose proof (Z.mod_pos_bound d Second ltac:(unfold Second; lia)) as Hm.
  lia.
Qed.

(** Truncation toward zero on any duration: the whole seconds are not
    more than the duration in absolute value, less than one second is
    dropped, and the sign is kept. *)
Lemma wholeSeconds_toward_zero (d : Duration) :
  Z.abs (wholeSeconds d * Second) <= Z.abs d < Z.abs (wholeSeconds d * Second) + Second /\
  0 <= wholeSeconds d * d.
Proof.
  destruct (Z.le_gt_cases 0 d) as [Hd | Hd].
  - pose proof (wholeSeconds_bounds d Hd) as Hb.
    assert (0 <= wholeSeconds d) as Hs
        by (apply Z.quot_pos; unfold Second; lia).
    split; [unfold Second in *; lia | now apply Z.mul_nonneg_nonneg].
  - pose proof (wholeSeconds_bounds (- d) ltac:(lia)) as Hb.
    assert (0 <= wholeSeconds (- d)) as Hs
        by (apply Z.quot_pos; unfold Second; lia).
    assert (wholeSeconds d = - wholeSeconds (- d)) as ->.
    { unfold wholeSeconds. rewrite Z.quot_opp_l by (unfold Second; lia). lia. }
    split; [unfold Second in *; lia|].
    apply Z.mul_nonpos_nonpos; lia.
Qed.

(** C10, as stated, fails: a delay of -1.5 s is strictly shorter than one
    second, yet [Release] passes -1 to the backend, not zero. *)
Lemma Release_negative_delay_not_zero :
  ~ (forall (B : Backend) (msg : msgqueue.Message) (h : History),
       msgqueue.Delay msg < Second ->
       exists k,
         snd (Release B msg h) =
           h ++ repeat (ReleaseMessage (msgqueue.Id msg)
                                       (msgqueue.ReservationId msg) 0) (S k)).
Proof.
  intros H.
  destruct (H Demo.okBackend (Demo.message "a" (-1500000000)) [] eq_refl)
    as [k Hk].
  cbn in Hk. discriminate.
Qed.

(** The run behind it. *)
Example Release_negative_delay_run :
  Release Demo.okBackend (Demo.message "a" (-1500000000)) [] =
    (None, [ReleaseMessage "a" "res" (-1)]).
Proof. reflexivity. Qed.

(** C10, as amended.  For every message, with no check of the sign,
    [Release] hands the backend the delay divided by [time.Second] and
    truncated toward zero: every call it makes is [ReleaseMessage] with
    that value.  The value is not more than the delay in absolute value,
    drops less than one second and keeps the sign; it is zero exactly for
    the delays strictly between -1 s and 1 s. *)
Theorem Release_delay_truncated_toward_zero (B : Backend) (msg : msgqueue.Message)
    (h : History) :
  let d := msgqueue.Delay msg in
  let secs := Z.quot d 1000000000 in
  (exists k, (k < 3)%nat /\
     snd (Release B msg h) =
       h ++ repeat (ReleaseMessage (msgqueue.Id msg) (msgqueue.ReservationId msg) secs)
                   (S k)) /\
  Z.abs (secs * Second) <= Z.abs d < Z.abs (secs * Second) + Second /\
  0 <= secs * d /\
  (- Second < d < Second <-> secs = 0).
Proof.
  intros d secs.
  destruct (wholeSeconds_toward_zero d) as [Hb Hsign].
  change (Z.quot d 1000000000) with (wholeSeconds d) in secs.
  fold secs in Hb, Hsign.
  split; [|split; [exact Hb | split; [exact Hsign|]]].
  - unfold Release. fold d. fold secs.
    destruct (retry_perform
                (fun h => onReleaseMessage B h (msgqueue.Id msg)
                            (msgqueue.ReservationId msg) secs)
                (ReleaseMessage (msgqueue.Id msg) (msgqueue.ReservationId msg) secs) h)
      as (k & Hk & Hsnd & _).
    exists k. split; assumption.
  - unfold Second in *. split; intros; lia.
Qed.

(** The calls of two releases on a service that accepts them. *)
Example Release_calls :
  calls (Release Demo.okBackend (Demo.message "a" 2999999999)) =
    [ReleaseMessage "a" "res" 2] /\
  calls (Release Demo.okBackend (Demo.message "a" 999999999)) =
    [ReleaseMessage "a" "res" 0].
Proof. split; reflexivity. Qed.

(** Go's division rounds toward zero, also below zero. *)
Example wholeSeconds_negative :
  wholeSeconds (-1500000000) = -1 /\ wholeSeconds (-999999999) = 0.
Proof. split; reflexivity. Qed.

(* ------------------------------------------------------------------ *)
(** ** ReserveN *)

Lemma capped_count (n : Z) : (if 100 <? n then 100 else n) = Z.min n 100.
Proof. destruct (100 <? n) eqn:H; [apply Z.ltb_lt in H | apply Z.ltb_ge in H]; lia. Qed.

(** [ReserveN] polls once, first of all, and the only other call it can
    make is the creation of the queue. *)
Lemma ReserveN_history (B : Backend) (q : Queue) (n : Z) (h : History) :
  snd (ReserveN B q n h) = h ++ [reservePoll q n] \/
  snd (ReserveN B q n h) = h ++ [reservePoll q n; ConfigCreateQueue (qName q)].
Proof.
  unfold ReserveN, reservePoll, bind, perform, createQueue.
  rewrite capped_count.
  destruct (onLongPoll B h _ _ _ false) as [mqMsgs [e|]]; [|now left].
  destruct (asHTTPResponseError e) as [v|]; [|now left].
  destruct (StatusCode v =? 404); [|now left].
  destruct (Contains (Error v) "Message not found"); [now left|].
  destruct (Contains (Error v) "Queue not found"); [|now left].
  right. cbn. now rewrite <- app_assoc.
Qed.

(** C3, as stated, fails: on a service whose queue does not exist yet,
    [ReserveN] polls once, creates the queue, and returns the 404 error;
    it does not poll a second time, although that poll would succeed. *)
Lemma ReserveN_queue_not_found_no_second_poll :
  ~ (forall (B : Backend) (q : Queue) (n : Z) (text : string),
       snd (reserveAnswer B q n []) = Some (HTTPResponseError 404 text) ->
       Contains text "Queue not found" = true ->
       In (ConfigCreateQueue (qName q)) (calls (ReserveN B q n)) /\
       (2 <= length (longPolls (calls (ReserveN B q n))))%nat).
Proof.
  intros H.
  destruct (H Demo.missingQueueBackend Demo.theQueue 10
              "404 Not Found: Queue not found"%string eq_refl eq_refl) as [_ Hpolls].
  cbn in Hpolls. lia.
Qed.

(** The run behind it. *)
Example ReserveN_queue_not_found_run :
  ReserveN Demo.missingQueueBackend Demo.theQueue 10 [] =
    (([], Some Demo.queueNotFound),
     [LongPoll 10 300 10 false; ConfigCreateQueue "jobs"]) /\
  fst (ReserveN Demo.missingQueueBackend Demo.theQueue 10
         [LongPoll 10 300 10 false; ConfigCreateQueue "jobs"]) = ([], None).
Proof. split; reflexivity. Qed.

(** C3, as amended.  When the long poll of [ReserveN] fails with an HTTP
    404 response whose text contains "Queue not found" (and not "Message
    not found"), [ReserveN] makes one call that creates the queue,
    whatever that call answers, makes no other call, and returns no
    message and the 404 error of the poll. *)
Theorem ReserveN_queue_not_found_creates_queue (B : Backend) (q : Queue) (n : Z)
    (h : History) (text : string) :
  snd (reserveAnswer B q n h) = Some (HTTPResponseError 404 text) ->
  Contains text "Queue not found" = true ->
  Contains text "Message not found" = false ->
  ReserveN B q n h =
    (([], Some (HTTPResponseError 404 text)),
     h ++ [reservePoll q n; ConfigCreateQueue (qName q)]) /\
  length (longPolls (calls (ReserveN B q n))) = 1%nat.
Proof.
  intros Hans Hq Hm.
  assert (forall h', snd (reserveAnswer B q n h') = Some (HTTPResponseError 404 text) ->
            ReserveN B q n h' =
              (([], Some (HTTPResponseError 404 text)),
               h' ++ [reservePoll q n; ConfigCreateQueue (qName q)])) as Hrun.
  { intros h' Hh'. unfold reserveAnswer in Hh'.
    unfold ReserveN, reservePoll, bind, perform, createQueue.
    rewrite capped_count.
    destruct (onLongPoll B h' _ _ _ false) as [mqMsgs err]; cbn in Hh'; subst err.
    cbn. rewrite Hm, Hq. cbn. now rewrite <- app_assoc. }
  split; [now apply Hrun|].
  destruct (ReserveN_history B q n []) as [Hh | Hh];
    unfold calls; rewrite Hh; reflexivity.
Qed.

Lemma ReserveN_queue_not_found_creates_queue_witness :
  snd (reserveAnswer Demo.missingQueueBackend Demo.theQueue 10 []) =
    Some (HTTPResponseError 404 "404 Not Found: Queue not found") /\
  ReserveN Demo.missingQueueBackend Demo.theQueue 10 [] =
    (([], Some (HTTPResponseError 404 "404 Not Found: Queue not found")),
     [] ++ [reservePoll Demo.theQueue 10; ConfigCreateQueue (qName Demo.theQueue)]) /\
  length (longPolls (calls (ReserveN Demo.missingQueueBackend Demo.theQueue 10))) = 1%nat.
Proof.
  split; [reflexivity|].
  exact (ReserveN_queue_not_found_creates_queue Demo.missingQueueBackend
           Demo.theQueue 10 [] "404 Not Found: Queue not found"%string
           eq_refl eq_refl eq_refl).
Defined.




(** The bound is not the adapter's doing: it returns whatever the poll
    returned. *)
Example ReserveN_generous_service :
  length (fst (fst (ReserveN Demo.generousBackend Demo.theQueue 5000 []))) = 101%nat.
Proof. reflexivity. Qed.

(* ------------------------------------------------------------------ *)
(** ** Add *)

Section AddProperties.
Variable q : Queue.
Variable EncodeArgs :
  msgqueue.Message -> (string * option error) * msgqueue.Message.
Variable WrapMessage : msgqueue.Message -> msgqueue.Message.
Variable MemQueue : Type.
Variable memqueue_Add : MemQueue -> msgqueue.Message -> option error * MemQueue.

Local Abbreviation add := (Add q EncodeArgs WrapMessage MemQueue memqueue_Add).

(** C7.  When [EncodeArgs] fails, [Add] returns that error and leaves
    the add-stage queue as it was.  When it succeeds, the message gets
    its [Compress] flag from the options of the queue, and what is
    staged, by one [Add] on the add-stage queue whose result is returned,
    is that message wrapped. *)
Theorem Add_encode_error_or_stage (msg : msgqueue.Message) (aq : MemQueue) :
  let encoded := snd (EncodeArgs msg) in
  let flagged := setCompress encoded (msgqueue.OptCompress (opt q)) in
  (forall e, snd (fst (EncodeArgs msg)) = Some e ->
     addErr (add msg aq) = Some e /\ addQueue (add msg aq) = aq) /\
  (snd (fst (EncodeArgs msg)) = None ->
     msgqueue.Compress (addMsg (add msg aq)) = msgqueue.OptCompress (opt q) /\
     addMsg (add msg aq) = flagged /\
     addErr (add msg aq) = fst (memqueue_Add aq (WrapMessage flagged)) /\
     addQueue (add msg aq) = snd (memqueue_Add aq (WrapMessage flagged))).
Proof.
  unfold Add, Options; cbn.
  destruct (EncodeArgs msg) as [[body [err|]] msg']; cbn.
  - split; [intros e [= <-]; split; reflexivity | discriminate].
  - split; [discriminate | intros _].
    destruct (memqueue_Add aq _) as [err aq']; cbn.
    repeat split.
Qed.
End AddProperties.

Lemma Add_encode_error_or_stage_witness :
  (snd (fst (Demo.encodeArgs (Demo.message "a" 0))) = None /\
   addQueue (Add Demo.theQueue Demo.encodeArgs Demo.wrap _ Demo.stage
               (Demo.message "a" 0) []) =
     [Demo.wrap (setCompress (Demo.message "a" 0) true)]) /\
  (snd (fst (Demo.encodeArgs Demo.unencodable)) =
     Some (ErrorString "codec: unsupported argument") /\
   addErr (Add Demo.theQueue Demo.encodeArgs Demo.wrap _ Demo.stage
             Demo.unencodable []) =
     Some (ErrorString "codec: unsupported argument") /\
   addQueue (Add Demo.theQueue Demo.encodeArgs Demo.wrap _ Demo.stage
               Demo.unencodable []) = []).
Proof.
  split; (split; [reflexivity|]).
  - destruct (Add_encode_error_or_stage Demo.theQueue Demo.encodeArgs Demo.wrap _
                Demo.stage (Demo.message "a" 0) []) as [_ Hok].
    destruct (Hok eq_refl) as (_ & _ & _ & Hq).
    rewrite Hq. reflexivity.
  - destruct (Add_encode_error_or_stage Demo.theQueue Demo.encodeArgs Demo.wrap _
                Demo.stage Demo.unencodable []) as [Herr _].
    exact (Herr _ eq_refl).
Defined.

(* ------------------------------------------------------------------ *)
(** ** CloseTimeout *)

Section ClosingProperties.
Variable World : Type.
Variable Processor : Type.
Variable StopTimeout : Processor -> Duration -> World -> option error * World.
Variable SetSync : bool -> World -> World.
Variable delQueue_CloseTimeout : Duration -> World -> option error * World.

Local Abbreviation close :=
  (CloseTimeout World Processor StopTimeout SetSync delQueue_CloseTimeout).

(** C6.  [CloseTimeout] stops the processor if there is one; then,
    whether or not that failed, it sets the delete batcher to
    synchronous mode and closes the delete queue, in this order and on
    the state that the stop left.  It returns the error of the stop if
    there is one, otherwise the error of closing the delete queue; so
    nil exactly when every step succeeded. *)
Theorem CloseTimeout_first_error (p : option Processor) (timeout : Duration)
    (w : World) :
  let stopped :=
    match p with
    | Some proc => StopTimeout proc timeout w
    | None => (None, w)
    end in
  let closed := delQueue_CloseTimeout timeout (SetSync true (snd stopped)) in
  snd (close p timeout w) = snd closed /\
  fst (close p timeout w) =
    match fst stopped with
    | Some e => Some e
    | None => fst closed
    end /\
  (fst (close p timeout w) = None <-> fst stopped = None /\ fst closed = None).
Proof.
  unfold CloseTimeout.
  destruct p as [proc|]; cbn.
  - destruct (StopTimeout proc timeout w) as [[e|] w1]; cbn;
      destruct (delQueue_CloseTimeout timeout (SetSync true w1)) as [[e'|] w2]; cbn;
      repeat split; try discriminate; try tauto;
      intros [? ?]; discriminate.
  - destruct (delQueue_CloseTimeout timeout (SetSync true w)) as [[e'|] w2]; cbn;
      repeat split; try discriminate; try tauto;
      intros [? ?]; discriminate.
Qed.
End ClosingProperties.

(** The steps of a shutdown in which both the stop and the closing of
    the delete queue fail: all three are made, and the error is that of
    the stop. *)
Example CloseTimeout_journal :
  CloseTimeout _ _ Demo.stopFails Demo.setSync Demo.closeFails (Some tt) 30 [] =
    (Some (ErrorString "workers did not stop"),
     [Demo.Stopped 30; Demo.Synced true; Demo.DelQueueClosed 30]).
Proof. reflexivity. Qed.

(* ------------------------------------------------------------------ *)
(** ** The delete batcher with the splitter and handler of the queue *)

Lemma bulkDeletes_app (h1 h2 : History) :
  bulkDeletes (h1 ++ h2) = bulkDeletes h1 ++ bulkDeletes h2.
Proof. unfold bulkDeletes. apply flat_map_app. Qed.

Lemma bulkDeletes_repeat (mqMsgs : list mq.Message) (k : nat) :
  bulkDeletes (repeat (DeleteReservedMessages mqMsgs) k) = repeat mqMsgs k.
Proof. induction k as [|k IH]; cbn; [reflexivity | now rewrite <- IH]. Qed.

Section DeleteBatcher.
Variable B : Backend.
Variable UnwrapMessage : msgqueue.Message -> msgqueue.Message * option error.

Local Abbreviation o := (delBatcherOptions B UnwrapMessage).

Lemma flush_withinCap batch h :
  (length batch <= 10)%nat -> withinCap h ->
  withinCap (snd (Batcher.flush o batch h)).
Proof.
  intros Hlen Hh. unfold Batcher.flush.
  destruct batch as [|msg rest]; [exact Hh|].
  change (Batcher.Handler o (msg :: rest) h)
    with (deleteBatch B UnwrapMessage (msg :: rest) h).
  destruct (deleteBatch_history B UnwrapMessage (msg :: rest) h)
    as [-> | (mqMsgs & k & _ & Hu & ->)]; [exact Hh|].
  unfold withinCap. rewrite bulkDeletes_app, bulkDeletes_repeat.
  apply Forall_app; split; [exact Hh|].
  apply Forall_forall. intros batch Hin.
  apply repeat_spec in Hin; subst batch.
  rewrite (unwrapBatch_length _ _ _ Hu). exact Hlen.
Qed.

(** Preservation by one event. *)
Lemma step_batcherInv b ev h :
  batcherInv b h ->
  batcherInv (fst (Batcher.step o b ev h)) (snd (Batcher.step o b ev h)).
Proof.
  intros [Hb Hh]. destruct ev as [msg| |v]; cbn.
  - unfold Batcher.Add, bind.
    assert (length (Batcher.msgs b ++ [msg]) <= 10)%nat as Hp
        by (rewrite length_app; cbn; lia).
    destruct (Batcher.sync b).
    + pose proof (flush_withinCap _ h Hp Hh) as Hf.
      destruct (Batcher.flush o _ h) as [err h']; cbn in *.
      split; [cbn; lia | exact Hf].
    + change (Batcher.Splitter o) with splitDeleteBatch.
      destruct (splitDeleteBatch_cases (Batcher.msgs b ++ [msg]))
        as [[Hlen ->] | [Hlen ->]].
      * cbn. split; [exact Hlen | exact Hh].
      * pose proof (flush_withinCap _ h Hp Hh) as Hf.
        destruct (Batcher.flush o _ h) as [err h']; cbn in *.
        split; [cbn; lia | exact Hf].
  - unfold Batcher.onTimeout, bind.
    destruct (Batcher.armed b); cbn; [|split; assumption].
    pose proof (flush_withinCap (Batcher.msgs b) h ltac:(lia) Hh) as Hf.
    destruct (Batcher.flush o _ h) as [err h']; cbn in *.
    split; [cbn; lia | exact Hf].
  - unfold Batcher.SetSync, bind.
    destruct v; cbn; [|split; assumption].
    pose proof (flush_withinCap (Batcher.msgs b) h ltac:(lia) Hh) as Hf.
    destruct (Batcher.flush o _ h) as [err h']; cbn in *.
    split; [cbn; lia | exact Hf].
Qed.

Lemma run_batcherInv evs : forall b h,
  batcherInv b h ->
  batcherInv (fst (Batcher.run o b evs h)) (snd (Batcher.run o b evs h)).
Proof.
  induction evs as [|ev rest IH]; intros b h Hinv; cbn; [exact Hinv|].
  unfold bind. pose proof (step_batcherInv b ev h Hinv) as Hstep.
  destruct (Batcher.step o b ev h) as [b' h']. now apply IH.
Qed.

Lemma run_app evs1 evs2 : forall b h,
  Batcher.run o b (evs1 ++ evs2) h =
  Batcher.run o (fst (Batcher.run o b evs1 h)) evs2 (snd (Batcher.run o b evs1 h)).
Proof.
  induction evs1 as [|ev rest IH]; intros b h; cbn; [reflexivity|].
  unfold bind. destruct (Batcher.step o b ev h) as [b' h']. apply IH.
Qed.

(** Messages added while fewer than 10 are pending are held back, and
    nothing is called. *)
Lemma run_adds_held adds : forall buf a h,
  (length (buf ++ adds) < 10)%nat ->
  Batcher.run o {| Batcher.msgs := buf; Batcher.sync := false; Batcher.armed := a |}
              (map Batcher.EvAdd adds) h =
  ({| Batcher.msgs := buf ++ adds; Batcher.sync := false;
      Batcher.armed := match buf ++ adds with
                       | [] => a
                       | _ :: _ => match adds with [] => a | _ :: _ => true end
                       end |}, h).
Proof.
  induction adds as [|msg rest IH]; intros buf a h Hlen; cbn.
  - rewrite app_nil_r. now destruct buf.
  - unfold bind, Batcher.Add; cbn.
    unfold splitDeleteBatch, messagesLimit.
    assert (length (buf ++ [msg]) < 10)%nat as Hlt
        by (rewrite !length_app in *; cbn in *; lia).
    apply Nat.leb_gt in Hlt. rewrite Hlt. cbn.
    rewrite IH by (rewrite <- app_assoc; exact Hlen).
    rewrite <- app_assoc. cbn.
    destruct (buf ++ msg :: rest) eqn:E; [now destruct buf|].
    destruct (buf ++ [msg]) eqn:E'; [now destruct buf|].
    now destruct rest.
Qed.

(** When every message unwraps, the entries of the bulk delete are
    those of the unwrapped messages, in order. *)
Lemma unwrapBatch_all msgs :
  (forall msg, In msg msgs -> snd (UnwrapMessage msg) = None) ->
  unwrapBatch UnwrapMessage msgs =
    inr (map (fun msg => reservedRef (fst (UnwrapMessage msg))) msgs).
Proof.
  induction msgs as [|msg rest IH]; intros Hall; cbn; [reflexivity|].
  pose proof (Hall msg (or_introl eq_refl)) as Hmsg.
  destruct (UnwrapMessage msg) as [msg' err]; cbn in *; subst err.
  rewrite IH by (intros m Hm; apply Hall; now right). reflexivity.
Qed.

(** A flush of messages that unwrap, on a service that accepts the bulk
    delete: one call. *)
Lemma flush_accepted batch h :
  batch <> [] ->
  (forall msg, In msg batch -> snd (UnwrapMessage msg) = None) ->
  (forall h' mqMsgs, onDeleteReservedMessages B h' mqMsgs = None) ->
  Batcher.flush o batch h =
    (None, h ++ [DeleteReservedMessages
                   (map (fun msg => reservedRef (fst (UnwrapMessage msg))) batch)]).
Proof.
  intros Hne Hall Hok. destruct batch as [|msg rest]; [contradiction|].
  unfold Batcher.flush.
  change (Batcher.Handler o (msg :: rest) h)
    with (deleteBatch B UnwrapMessage (msg :: rest) h).
  unfold deleteBatch. rewrite (unwrapBatch_all _ Hall).
  cbn [length Nat.eqb]. unfold bind, retry, perform. cbn.
  rewrite Hok. reflexivity.
Qed.
(** The run of the scenario: nine messages are held back, the tenth
    releases a flush of the ten, the next five are held back, and the
    timer flushes them. *)
Lemma run_fifteen (first9 : list msgqueue.Message) (m10 : msgqueue.Message)
    (last5 : list msgqueue.Message) :
  length first9 = 9%nat -> length last5 = 5%nat ->
  (forall msg, In msg (first9 ++ m10 :: last5) -> snd (UnwrapMessage msg) = None) ->
  (forall h mqMsgs, onDeleteReservedMessages B h mqMsgs = None) ->
  let entry := fun msg => reservedRef (fst (UnwrapMessage msg)) in
  let adds := map Batcher.EvAdd (first9 ++ m10 :: last5) in
  calls (Batcher.run o Batcher.empty adds) =
    [DeleteReservedMessages (map entry (first9 ++ [m10]))] /\
  calls (Batcher.run o Batcher.empty (adds ++ [Batcher.EvTimeout])) =
    [DeleteReservedMessages (map entry (first9 ++ [m10]));
     DeleteReservedMessages (map entry last5)].
Proof.
  intros H9 H5 Hall Hok entry adds.
  assert (Batcher.run o Batcher.empty adds [] =
            ({| Batcher.msgs := last5; Batcher.sync := false; Batcher.armed := true |},
             [DeleteReservedMessages (map entry (first9 ++ [m10]))])) as Hadds.
  { unfold adds. rewrite map_app, run_app. unfold Batcher.empty.
    rewrite run_adds_held by (cbn; rewrite H9; lia).
    cbn [fst snd app map Batcher.run Batcher.step].
    unfold bind at 1 2. unfold Batcher.Add.
    cbn [Batcher.sync Batcher.msgs].
    change (Batcher.Splitter o) with splitDeleteBatch.
    destruct (splitDeleteBatch_cases (first9 ++ [m10])) as [[Hlen _] | [_ ->]];
      [rewrite length_app, H9 in Hlen; cbn in Hlen; lia|].
    unfold bind at 1.
    rewrite flush_accepted; auto.
    2:{ now destruct first9. }
    2:{ intros msg Hin. apply Hall. apply in_app_or in Hin.
        apply in_or_app. destruct Hin as [Hin | [<- | []]]; [now left | right; now left]. }
    cbn [ret fst snd app].
    rewrite run_adds_held by (cbn; rewrite H5; lia).
    cbn [app]. destruct last5; [discriminate|reflexivity]. }
  split.
  - unfold calls. now rewrite Hadds.
  - unfold calls. rewrite run_app, Hadds.
    cbn [fst snd Batcher.run Batcher.step]. unfold bind at 1 2.
    unfold Batcher.onTimeout. cbn [Batcher.armed Batcher.msgs]. unfold bind at 1.
    rewrite flush_accepted;
      [reflexivity | now destruct last5 | | exact Hok].
    intros msg Hin. apply Hall. apply in_or_app. right. now right.
Qed.

(** C1.  With the splitter and handler of the queue (cap 10), fifteen
    completed messages added one after the other and then the expiry of
    the timer give, on a service that accepts the bulk delete, exactly two
    [DeleteReservedMessages] calls: the first ten messages when the tenth
    is added, the last five when the timer fires.  And whatever is added,
    whenever the timer fires, in either mode and on any service, no
    [DeleteReservedMessages] call carries more than 10 messages. *)
Theorem fifteen_messages_two_bulk_deletes (msgs : list msgqueue.Message) :
  length msgs = 15%nat ->
  (forall msg, In msg msgs -> snd (UnwrapMessage msg) = None) ->
  (forall h mqMsgs, onDeleteReservedMessages B h mqMsgs = None) ->
  let entry := fun msg => reservedRef (fst (UnwrapMessage msg)) in
  let adds := map Batcher.EvAdd msgs in
  bulkDeletes (calls (Batcher.run o Batcher.empty adds)) =
    [map entry (firstn 10 msgs)] /\
  calls (Batcher.run o Batcher.empty (adds ++ [Batcher.EvTimeout])) =
    [DeleteReservedMessages (map entry (firstn 10 msgs));
     DeleteReservedMessages (map entry (skipn 10 msgs))] /\
  length (map entry (firstn 10 msgs)) = 10%nat /\
  length (map entry (skipn 10 msgs)) = 5%nat /\
  (forall evs, withinCap (calls (Batcher.run o Batcher.empty evs))).
Proof.
  intros Hlen Hall Hok entry adds.
  split; [|split; [|split; [|split]]].
  5:{ intros evs. apply (run_batcherInv evs Batcher.empty []).
      split; [cbn; lia | constructor]. }
  all: do 15 (destruct msgs as [|? msgs]; [discriminate|]);
    destruct msgs; [|discriminate]; try reflexivity.
  all: subst adds;
       match goal with
       | |- context [map Batcher.EvAdd (?a :: ?b :: ?c :: ?d :: ?e :: ?f :: ?g :: ?i
                                          :: ?j :: ?k :: ?rest)] =>
           destruct (run_fifteen [a; b; c; d; e; f; g; i; j] k rest
                       eq_refl eq_refl Hall Hok) as [Hten Hboth]
       end.
  - cbn [app] in Hten. rewrite Hten. reflexivity.
  - cbn [app] in Hboth. rewrite Hboth. reflexivity.
Qed.

End DeleteBatcher.

Lemma fifteen_messages_two_bulk_deletes_witness :
  length Demo.fifteen = 15%nat /\
  calls (Batcher.run (delBatcherOptions Demo.okBackend Demo.unwrap) Batcher.empty
           (map Batcher.EvAdd Demo.fifteen ++ [Batcher.EvTimeout])) =
    [DeleteReservedMessages
       (map (fun msg => reservedRef (fst (Demo.unwrap msg))) (firstn 10 Demo.fifteen));
     DeleteReservedMessages
       (map (fun msg => reservedRef (fst (Demo.unwrap msg))) (skipn 10 Demo.fifteen))].
Proof.
  split; [reflexivity|].
  apply (fifteen_messages_two_bulk_deletes Demo.okBackend Demo.unwrap Demo.fifteen).
  - reflexivity.
  - intros msg Hin. cbn in Hin.
    repeat (destruct Hin as [<- | Hin]; [reflexivity|]). contradiction.
  - reflexivity.
Defined.

(** A forced sync flushes the tail: five pending messages and then
    [SetSync true] give one bulk delete of five. *)
Example five_pending_forced_sync :
  map (@length mq.Message)
      (bulkDeletes
         (calls (Batcher.run (delBatcherOptions Demo.okBackend Demo.unwrap)
                   Batcher.empty
                   (map Batcher.EvAdd (firstn 5 Demo.fifteen)
                    ++ [Batcher.EvSetSync true])))) =
  [5%nat].
Proof. reflexivity. Qed.

(** The sizes of the two batches of that run. *)
Example fifteen_batch_sizes :
  map (@length mq.Message)
      (bulkDeletes
         (calls (Batcher.run (delBatcherOptions Demo.okBackend Demo.unwrap)
                   Batcher.empty
                   (map Batcher.EvAdd Demo.fifteen ++ [Batcher.EvTimeout])))) =
  [10%nat; 5%nat].
Proof. reflexivity. Qed.

(* ================================================================== *)
(** * Further properties of the adapter *)

(* ------------------------------------------------------------------ *)
(** ** Substrings *)

Lemma prefix_app (sub post : string) : prefix sub (sub ++ post) = true.
Proof.
  induction sub as [|c sub IH]; cbn.
  - now destruct post.
  - destruct (Ascii.ascii_dec c c) as [_|Hc]; [exact IH | contradiction].
Qed.

Lemma prefix_inv (sub s : string) :
  prefix sub s = true -> exists post, s = (sub ++ post)%string.
Proof.
  revert s; induction sub as [|c sub IH]; intros s H.
  - exists s. reflexivity.
  - destruct s as [|c' s]; cbn in H; [discriminate|].
    destruct (Ascii.ascii_dec c c') as [<-|_]; [|discriminate].
    destruct (IH s H) as [post ->]. exists post. reflexivity.
Qed.

(** [Contains] is [strings.Contains]: the text has the substring
    somewhere. *)
Lemma Contains_spec (s sub : string) :
  Contains s sub = true <->
  exists pre post, s = (pre ++ sub ++ post)%string.
Proof.
  split.
  - induction s as [|c s IH]; cbn [Contains]; intros H.
    + apply prefix_inv in H. destruct H as [post H]. exists EmptyString, post. exact H.
    + apply orb_true_iff in H. destruct H as [H | H].
      * apply prefix_inv in H. destruct H as [post H]. exists EmptyString, post. exact H.
      * destruct (IH H) as (pre & post & ->). exists (String c pre), post. reflexivity.
  - intros (pre & post & ->). induction pre as [|c pre IH].
    + change (EmptyString ++ sub ++ post)%string with (sub ++ post)%string.
      destruct (sub ++ post)%string eqn:E; cbn [Contains];
        rewrite <- E, prefix_app; reflexivity.
    + change (String c pre ++ sub ++ post)%string
        with (String c (pre ++ sub ++ post)).
      cbn [Contains]. rewrite IH. apply orb_true_r.
Qed.

(* ------------------------------------------------------------------ *)
(** ** More on ReserveN *)

Lemma ReserveN_unfold (B : Backend) (q : Queue) (n : Z) (h : History) :
  ReserveN B q n h =
  match reserveAnswer B q n h with
  | (mqMsgs, None) => ((map reserved mqMsgs, None), h ++ [reservePoll q n])
  | (_, Some e) =>
      match asHTTPResponseError e with
      | Some v =>
          if StatusCode v =? 404 then
            if Contains (Error v) "Message not found" then
              (([], None), h ++ [reservePoll q n])
            else if Contains (Error v) "Queue not found" then
              (([], Some e), h ++ [reservePoll q n; ConfigCreateQueue (qName q)])
            else (([], Some e), h ++ [reservePoll q n])
          else (([], Some e), h ++ [reservePoll q n])
      | None => (([], Some e), h ++ [reservePoll q n])
      end
  end.
Proof.
  unfold ReserveN, reserveAnswer, reservePoll, bind, perform, createQueue.
  rewrite capped_count.
  destruct (onLongPoll B h _ _ _ false) as [mqMsgs [e|]]; [|reflexivity].
  destruct (asHTTPResponseError e) as [v|]; [|reflexivity].
  destruct (StatusCode v =? 404); [|reflexivity].
  destruct (Contains (Error v) "Message not found"); [reflexivity|].
  destruct (Contains (Error v) "Queue not found"); [|reflexivity].
  cbn. now rewrite <- app_assoc.
Qed.

(** X1.  An empty queue is not an error: when the poll fails with a 404
    whose text contains "Message not found", [ReserveN] returns no
    message and a nil error after that single poll, and does not create
    the queue, whatever else the text says. *)
Theorem ReserveN_message_not_found_is_empty (B : Backend) (q : Queue) (n : Z)
    (h : History) (pre post : string) :
  snd (reserveAnswer B q n h) =
    Some (HTTPResponseError 404 (pre ++ "Message not found" ++ post)) ->
  ReserveN B q n h = (([], None), h ++ [reservePoll q n]).
Proof.
  intros Hans. rewrite ReserveN_unfold.
  destruct (reserveAnswer B q n h) as [mqMsgs err]; cbn in Hans; subst err.
  cbn [asHTTPResponseError StatusCode Error fst snd].
  rewrite Z.eqb_refl.
  rewrite (proj2 (Contains_spec _ "Message not found"))
    by (exists pre, post; reflexivity).
  reflexivity.
Qed.

Lemma ReserveN_message_not_found_is_empty_witness :
  snd (reserveAnswer Cases.emptyBackend Demo.theQueue 10 []) =
    Some (HTTPResponseError 404 ("404 Not Found: " ++ "Message not found" ++ "")) /\
  ReserveN Cases.emptyBackend Demo.theQueue 10 [] =
    (([], None), [] ++ [reservePoll Demo.theQueue 10]).
Proof.
  split; [reflexivity|].
  apply (ReserveN_message_not_found_is_empty Cases.emptyBackend Demo.theQueue 10 []
           "404 Not Found: " "").
  reflexivity.
Defined.

(** X2.  [ReserveN] does not go through [retry]: a poll error that is not
    an HTTP 404 response (a 5xx, a network error) is returned as it is,
    with no message, after that single poll and without any other call. *)
Theorem ReserveN_error_returned_after_one_poll (B : Backend) (q : Queue) (n : Z)
    (h : History) (e : error) :
  snd (reserveAnswer B q n h) = Some e ->
  (forall text, e <> HTTPResponseError 404 text) ->
  ReserveN B q n h = (([], Some e), h ++ [reservePoll q n]).
Proof.
  intros Hans Hnot. rewrite ReserveN_unfold.
  destruct (reserveAnswer B q n h) as [mqMsgs err]; cbn in Hans; subst err.
  destruct e as [status text|timeout text|text]; cbn; try reflexivity.
  destruct (status =? 404) eqn:Hs; [|reflexivity].
  apply Z.eqb_eq in Hs; subst status. now contradiction (Hnot text).
Qed.

Lemma ReserveN_error_returned_after_one_poll_witness :
  snd (reserveAnswer Cases.downBackend Demo.theQueue 10 []) = Some Cases.unavailable /\
  ReserveN Cases.downBackend Demo.theQueue 10 [] =
    (([], Some Cases.unavailable), [] ++ [reservePoll Demo.theQueue 10]).
Proof.
  split; [reflexivity|].
  apply (ReserveN_error_returned_after_one_poll Cases.downBackend Demo.theQueue 10 []
           Cases.unavailable eq_refl).
  intros text; discriminate.
Defined.

(** X3.  [ReserveN] makes one poll and at most one more call, the
    creation of the queue; and it creates the queue only when the poll
    failed with a 404 whose text contains "Queue not found" and not
    "Message not found". *)
Theorem ReserveN_creates_queue_only_when_not_found (B : Backend) (q : Queue)
    (n : Z) (h : History) :
  (snd (ReserveN B q n h) = h ++ [reservePoll q n] \/
   snd (ReserveN B q n h) = h ++ [reservePoll q n; ConfigCreateQueue (qName q)]) /\
  (snd (ReserveN B q n h) = h ++ [reservePoll q n; ConfigCreateQueue (qName q)] <->
   exists text,
     snd (reserveAnswer B q n h) = Some (HTTPResponseError 404 text) /\
     Contains text "Queue not found" = true /\
     Contains text "Message not found" = false).
Proof.
  assert (h ++ [reservePoll q n] <>
          h ++ [reservePoll q n; ConfigCreateQueue (qName q)]) as Hne.
  { intros H. apply app_inv_head in H. discriminate. }
  rewrite ReserveN_unfold.
  destruct (reserveAnswer B q n h) as [mqMsgs [e|]]; cbn [snd].
  2:{ split; [now left|]. split; [intros H; now apply Hne in H|].
      intros (text & [=] & _). }
  destruct e as [status text|timeout text|text]; cbn.
  2,3: split; [now left|]; split; [intros H; now apply Hne in H|];
       intros (t & [=] & _).
  destruct (status =? 404) eqn:Hs.
  2:{ apply Z.eqb_neq in Hs. split; [now left|].
      split; [intros H; now apply Hne in H|].
      intros (t & [= ? ?] & _). contradiction. }
  apply Z.eqb_eq in Hs; subst status.
  destruct (Contains text "Message not found") eqn:Hm.
  { split; [now left|]. split; [intros H; now apply Hne in H|].
    intros (t & [= <-] & _ & Hm'). congruence. }
  destruct (Contains text "Queue not found") eqn:Hq; cbn.
  - split; [now right|]. split; [|reflexivity].
    intros _. exists text. auto.
  - split; [now left|]. split; [intros H; now apply Hne in H|].
    intros (t & [= <-] & Hq' & _). congruence.
Qed.

(** X4.  On a successful poll [ReserveN] returns one message per polled
    message, in the same order, carrying its id, body, reservation id and
    reserved count; the other fields have Go's zero value, so the message
    has no name, no arguments and no delay. *)
Theorem ReserveN_reserved_messages (B : Backend) (q : Queue) (n : Z)
    (h : History) (mqMsgs : list mq.Message) :
  reserveAnswer B q n h = (mqMsgs, None) ->
  let msgs := fst (fst (ReserveN B q n h)) in
  snd (fst (ReserveN B q n h)) = None /\
  length msgs = length mqMsgs /\
  (forall i mqMsg, nth_error mqMsgs i = Some mqMsg ->
     exists msg, nth_error msgs i = Some msg /\
       msgqueue.Id msg = mq.Id mqMsg /\
       msgqueue.Body msg = mq.Body mqMsg /\
       msgqueue.ReservationId msg = mq.ReservationId mqMsg /\
       msgqueue.ReservedCount msg = mq.ReservedCount mqMsg /\
       msgqueue.Name msg = EmptyString /\
       msgqueue.Args msg = [] /\
       msgqueue.Delay msg = 0 /\
       msgqueue.Compress msg = false).
Proof.
  intros Hans. rewrite ReserveN_unfold, Hans. cbn.
  split; [reflexivity|]. split; [apply length_map|].
  intros i mqMsg Hi. exists (reserved mqMsg).
  split; [|repeat split].
  now apply map_nth_error.
Qed.

Lemma ReserveN_reserved_messages_witness :
  reserveAnswer Cases.loadedBackend Demo.theQueue 10 [] =
    ([Cases.first; Cases.second], None) /\
  length (fst (fst (ReserveN Cases.loadedBackend Demo.theQueue 10 []))) = 2%nat.
Proof.
  split; [reflexivity|].
  apply (ReserveN_reserved_messages Cases.loadedBackend Demo.theQueue 10 []
           [Cases.first; Cases.second] eq_refl).
Defined.

(* ------------------------------------------------------------------ *)
(** ** The calls of Delete and Release *)

(** [retry] around one client call, in full: the call is repeated
    [k + 1 <= 3] times; the first [k] answers are errors of status >= 500;
    the last answer is returned; and when fewer than three calls were
    made, the last answer is nil or an error that is not retried. *)
Lemma retry_perform_full (answer : History -> option error) (c : Call) (h : History) :
  exists k, (k < 3)%nat /\
    retry (perform answer c) h = (answer (h ++ repeat c k), h ++ repeat c (S k)) /\
    (forall j, (j < k)%nat ->
       exists e, answer (h ++ repeat c j) = Some e /\ retryable e = true) /\
    ((k < 2)%nat ->
       forall e, answer (h ++ repeat c k) = Some e -> retryable e = false).
Proof.
  destruct (retry_perform answer c h) as (k & Hk & Hsnd & Hfst & Hprev).
  exists k. split; [exact Hk|]. split; [|split; [exact Hprev|]].
  - rewrite (surjective_pairing (retry (perform answer c) h)), Hsnd, Hfst. reflexivity.
  - revert Hsnd. unfold retry, perform; cbn.
    destruct (answer h) as [e0|] eqn:A0.
    2:{ intros Hs Hk2 e He. apply app_inv_head in Hs.
        destruct k as [|k]; [|discriminate].
        cbn in He. rewrite app_nil_r in He. congruence. }
    destruct (retryable e0) eqn:R0; cbn.
    2:{ intros Hs Hk2 e He. apply app_inv_head in Hs.
        destruct k as [|k]; [|discriminate].
        cbn in He. rewrite app_nil_r in He. congruence. }
    destruct (answer (h ++ [c])) as [e1|] eqn:A1.
    2:{ cbn. rewrite <- app_assoc. intros Hs Hk2 e He. apply app_inv_head in Hs.
        destruct k as [|[|k]]; try discriminate.
        cbn in He. congruence. }
    destruct (retryable e1) eqn:R1; cbn.
    2:{ rewrite <- app_assoc. intros Hs Hk2 e He. apply app_inv_head in Hs.
        destruct k as [|[|k]]; try discriminate.
        cbn in He. congruence. }
    intros Hs Hk2.
    destruct (answer ((h ++ [c]) ++ [c])) as [e2|]; [destruct (retryable e2)|];
      cbn in Hs; rewrite <- !app_assoc in Hs; cbn in Hs;
      apply app_inv_head in Hs;
      destruct k as [|[|k]]; try discriminate; lia.
Qed.

(** X5.  [Delete] makes between one and three calls, all of them
    [DeleteMessage] with the id and reservation id of the message; every
    call but the last was answered by an error of status >= 500; and
    [Delete] succeeds exactly when the last answer is nil or a 404. *)
Theorem Delete_attempts (B : Backend) (msg : msgqueue.Message) (h : History) :
  let c := DeleteMessage (msgqueue.Id msg) (msgqueue.ReservationId msg) in
  let answer := fun h' =>
    onDeleteMessage B h' (msgqueue.Id msg) (msgqueue.ReservationId msg) in
  exists k, (k < 3)%nat /\
    snd (Delete B msg h) = h ++ repeat c (S k) /\
    (forall j, (j < k)%nat ->
       exists status text,
         answer (h ++ repeat c j) = Some (HTTPResponseError status text) /\
         500 <= status) /\
    (fst (Delete B msg h) = None <->
       answer (h ++ repeat c k) = None \/
       exists text, answer (h ++ repeat c k) = Some (HTTPResponseError 404 text)).
Proof.
  intros c answer.
  destruct (retry_perform_full answer c h) as (k & Hk & Hrun & Hprev & _).
  exists k. split; [exact Hk|].
  unfold Delete, bind. fold c. fold answer. rewrite Hrun.
  split; [|split].
  - destruct (answer (h ++ repeat c k)) as [e|]; [|reflexivity].
    destruct e as [status text| |]; cbn; try reflexivity.
    destruct (status =? 404); reflexivity.
  - intros j Hj. destruct (Hprev j Hj) as (e & He & Hr).
    destruct e as [status text| |]; cbn in Hr; try discriminate.
    exists status, text. split; [exact He | lia].
  - destruct (answer (h ++ repeat c k)) as [e|]; [|cbn; tauto].
    destruct e as [status text|timeout text|text]; cbn.
    + destruct (status =? 404) eqn:Hs; cbn.
      * apply Z.eqb_eq in Hs; subst. split; [eauto | reflexivity].
      * apply Z.eqb_neq in Hs. split; [discriminate|].
        intros [[=] | (t & [= ? ?])]. contradiction.
    + split; [discriminate | intros [[=] | (t & [=])]].
    + split; [discriminate | intros [[=] | (t & [=])]].
Qed.

(** Three calls on a service that answers 503 twice and then finds the
    message gone. *)
Example Delete_flaky_run :
  Delete Cases.flakyBackend (Demo.message "a" 0) [] =
    (None, repeat (DeleteMessage "a" "res") 3).
Proof. reflexivity. Qed.

(** X6.  [Release] makes between one and three calls, all of them
    [ReleaseMessage] with the id, the reservation id and the delay in
    whole seconds; every call but the last was answered by an error of
    status >= 500; and [Release] returns the last answer as it is, a 404
    included. *)
Theorem Release_attempts (B : Backend) (msg : msgqueue.Message) (h : History) :
  let c := ReleaseMessage (msgqueue.Id msg) (msgqueue.ReservationId msg)
                          (wholeSeconds (msgqueue.Delay msg)) in
  let answer := fun h' =>
    onReleaseMessage B h' (msgqueue.Id msg) (msgqueue.ReservationId msg)
                     (wholeSeconds (msgqueue.Delay msg)) in
  exists k, (k < 3)%nat /\
    Release B msg h = (answer (h ++ repeat c k), h ++ repeat c (S k)) /\
    (forall j, (j < k)%nat ->
       exists status text,
         answer (h ++ repeat c j) = Some (HTTPResponseError status text) /\
         500 <= status) /\
    ((k < 2)%nat ->
       forall status text,
         answer (h ++ repeat c k) = Some (HTTPResponseError status text) ->
         status < 500).
Proof.
  intros c answer.
  destruct (retry_perform_full answer c h) as (k & Hk & Hrun & Hprev & Hlast).
  exists k. split; [exact Hk|]. split; [exact Hrun|]. split.
  - intros j Hj. destruct (Hprev j Hj) as (e & He & Hr).
    destruct e as [status text| |]; cbn in Hr; try discriminate.
    exists status, text. split; [exact He | lia].
  - intros Hk2 status text He. specialize (Hlast Hk2 _ He). cbn in Hlast. lia.
Qed.

(** A release that finds the message gone fails, after one call. *)
Example Release_gone_run :
  Release Cases.emptyBackend (Demo.message "a" 0) [] =
    (Some Demo.messageNotFound, [ReleaseMessage "a" "res" 0]).
Proof. reflexivity. Qed.

(** X7.  What is reserved is what is deleted or released: for a message
    returned by a successful [ReserveN], on any service and history,
    [Delete] only calls [DeleteMessage] with the id and reservation id
    that the poll gave, and [Release] only calls [ReleaseMessage] with
    them and a zero delay. *)
Theorem ReserveN_then_Delete_or_Release (B : Backend) (q : Queue) (n : Z)
    (h : History) (mqMsgs : list mq.Message) (i : nat) (mqMsg : mq.Message) :
  reserveAnswer B q n h = (mqMsgs, None) ->
  nth_error mqMsgs i = Some mqMsg ->
  exists msg,
    nth_error (fst (fst (ReserveN B q n h))) i = Some msg /\
    forall (B' : Backend) (h' : History),
      (exists k, (k < 3)%nat /\
         snd (Delete B' msg h') =
           h' ++ repeat (DeleteMessage (mq.Id mqMsg) (mq.ReservationId mqMsg)) (S k)) /\
      (exists k, (k < 3)%nat /\
         snd (Release B' msg h') =
           h' ++ repeat (ReleaseMessage (mq.Id mqMsg) (mq.ReservationId mqMsg) 0) (S k)).
Proof.
  intros Hans Hi. rewrite ReserveN_unfold, Hans. cbn [fst].
  exists (reserved mqMsg). split; [now apply map_nth_error|].
  intros B' h'. split.
  - destruct (retry_perform_full
                (fun h0 => onDeleteMessage B' h0 (mq.Id mqMsg) (mq.ReservationId mqMsg))
                (DeleteMessage (mq.Id mqMsg) (mq.ReservationId mqMsg)) h')
      as (k & Hk & Hrun & _).
    exists k. split; [exact Hk|].
    unfold Delete, bind. cbn [reserved msgqueue.Id msgqueue.ReservationId].
    rewrite Hrun.
    destruct (onDeleteMessage B' _ _ _) as [e|]; [|reflexivity].
    destruct e as [status text| |]; cbn; try reflexivity.
    destruct (status =? 404); reflexivity.
  - destruct (retry_perform_full
                (fun h0 => onReleaseMessage B' h0 (mq.Id mqMsg) (mq.ReservationId mqMsg) 0)
                (ReleaseMessage (mq.Id mqMsg) (mq.ReservationId mqMsg) 0) h')
      as (k & Hk & Hrun & _).
    exists k. split; [exact Hk|].
    unfold Release. cbn [reserved msgqueue.Id msgqueue.ReservationId msgqueue.Delay].
    change (wholeSeconds 0) with 0. rewrite Hrun. reflexivity.
Qed.

Lemma ReserveN_then_Delete_or_Release_witness :
  reserveAnswer Cases.loadedBackend Demo.theQueue 10 [] =
    ([Cases.first; Cases.second], None) /\
  nth_error [Cases.first; Cases.second] 1 = Some Cases.second /\
  exists msg,
    nth_error (fst (fst (ReserveN Cases.loadedBackend Demo.theQueue 10 []))) 1 =
      Some msg /\
    snd (Delete Demo.okBackend msg []) = [DeleteMessage "id-2" "res-2"].
Proof.
  split; [reflexivity|]. split; [reflexivity|].
  destruct (ReserveN_then_Delete_or_Release Cases.loadedBackend Demo.theQueue 10 []
              [Cases.first; Cases.second] 1 Cases.second eq_refl eq_refl)
    as (msg & Hnth & _).
  exists msg. split; [exact Hnth|].
  cbn in Hnth. injection Hnth as <-. reflexivity.
Defined.

(* ------------------------------------------------------------------ *)
(** ** More on deleteBatch *)

(** X8.  [deleteBatch] deletes all or nothing: if one message of the
    batch does not unwrap, the error of the first such message is
    returned and no call is made, also for the messages before it. *)
Theorem deleteBatch_unwrap_error_no_call (B : Backend)
    (UnwrapMessage : msgqueue.Message -> msgqueue.Message * option error)
    (before : list msgqueue.Message) (bad : msgqueue.Message)
    (after : list msgqueue.Message) (err : error) (h : History) :
  (forall msg, In msg before -> snd (UnwrapMessage msg) = None) ->
  snd (UnwrapMessage bad) = Some err ->
  deleteBatch B UnwrapMessage (before ++ bad :: after) h = (Some err, h).
Proof.
  intros Hbefore Hbad.
  assert (unwrapBatch UnwrapMessage (before ++ bad :: after) = inl err) as Hu.
  { induction before as [|msg rest IH]; cbn.
    - destruct (UnwrapMessage bad) as [m e]; cbn in Hbad; subst e. reflexivity.
    - pose proof (Hbefore msg (or_introl eq_refl)) as Hmsg.
      destruct (UnwrapMessage msg) as [m e]; cbn in Hmsg; subst e.
      rewrite IH by (intros m' Hm'; apply Hbefore; now right). reflexivity. }
  unfold deleteBatch. rewrite Hu.
  destruct (before ++ bad :: after) eqn:E; [now destruct before|].
  reflexivity.
Qed.

Lemma deleteBatch_unwrap_error_no_call_witness :
  snd (Demo.unwrap (Demo.message "b" 0)) =
    Some (ErrorString "UnwrapMessage: wanted one *msgqueue.Message") /\
  deleteBatch Demo.okBackend Demo.unwrap Cases.mixed [] =
    (Some (ErrorString "UnwrapMessage: wanted one *msgqueue.Message"), []).
Proof.
  split; [reflexivity|].
  apply (deleteBatch_unwrap_error_no_call Demo.okBackend Demo.unwrap
           [Demo.wrap (Demo.message "a" 0)] (Demo.message "b" 0) [Demo.unencodable]).
  - intros msg [<- | []]. reflexivity.
  - reflexivity.
Defined.

(** X9.  When every message of a non-empty batch unwraps, [deleteBatch]
    makes between one and three calls, all the same
    [DeleteReservedMessages]; its entries are, in order, one per message,
    the id and reservation id of the unwrapped message and nothing else;
    every call but the last was answered by an error of status >= 500,
    and the last answer is returned. *)
Theorem deleteBatch_bulk_delete (B : Backend)
    (UnwrapMessage : msgqueue.Message -> msgqueue.Message * option error)
    (msgs : list msgqueue.Message) (h : History) :
  msgs <> [] ->
  (forall msg, In msg msgs -> snd (UnwrapMessage msg) = None) ->
  exists entries k,
    (k < 3)%nat /\
    deleteBatch B UnwrapMessage msgs h =
      (onDeleteReservedMessages B (h ++ repeat (DeleteReservedMessages entries) k) entries,
       h ++ repeat (DeleteReservedMessages entries) (S k)) /\
    (forall j, (j < k)%nat ->
       exists status text,
         onDeleteReservedMessages B (h ++ repeat (DeleteReservedMessages entries) j)
                                  entries = Some (HTTPResponseError status text) /\
         500 <= status) /\
    length entries = length msgs /\
    (forall i msg, nth_error msgs i = Some msg ->
       exists entry, nth_error entries i = Some entry /\
         mq.Id entry = msgqueue.Id (fst (UnwrapMessage msg)) /\
         mq.ReservationId entry = msgqueue.ReservationId (fst (UnwrapMessage msg)) /\
         mq.Body entry = EmptyString /\ mq.Delay entry = 0 /\
         mq.ReservedCount entry = 0).
Proof.
  intros Hne Hall.
  set (entries := map (fun msg => reservedRef (fst (UnwrapMessage msg))) msgs).
  destruct (retry_perform_full (fun h' => onDeleteReservedMessages B h' entries)
              (DeleteReservedMessages entries) h) as (k & Hk & Hrun & Hprev & _).
  exists entries, k. split; [exact Hk|]. split; [|split; [|split]].
  - unfold deleteBatch. rewrite (unwrapBatch_all _ _ Hall). fold entries.
    destruct msgs as [|m rest]; [contradiction|]. cbn [length Nat.eqb].
    unfold bind. rewrite Hrun.
    destruct (onDeleteReservedMessages B _ entries); reflexivity.
  - intros j Hj. destruct (Hprev j Hj) as (e & He & Hr).
    destruct e as [status text| |]; cbn in Hr; try discriminate.
    exists status, text. split; [exact He | lia].
  - apply length_map.
  - intros i msg Hi. exists (reservedRef (fst (UnwrapMessage msg))).
    split; [|repeat split].
    unfold entries.
    apply (map_nth_error (fun msg => reservedRef (fst (UnwrapMessage msg))) _ _ Hi).
Qed.

Lemma deleteBatch_bulk_delete_witness :
  Demo.fifteen <> [] /\
  exists entries k,
    (k < 3)%nat /\
    deleteBatch Demo.okBackend Demo.unwrap Demo.fifteen [] =
      (onDeleteReservedMessages Demo.okBackend
         ([] ++ repeat (DeleteReservedMessages entries) k) entries,
       [] ++ repeat (DeleteReservedMessages entries) (S k)) /\
    length entries = length Demo.fifteen.
Proof.
  split; [discriminate|].
  destruct (deleteBatch_bulk_delete Demo.okBackend Demo.unwrap Demo.fifteen [])
    as (entries & k & Hk & Hrun & _ & Hlen & _).
  - discriminate.
  - intros msg Hin. cbn in Hin.
    repeat (destruct Hin as [<- | Hin]; [reflexivity|]). contradiction.
  - exists entries, k. auto.
Defined.

(* ------------------------------------------------------------------ *)
(** ** The handler of the add stage *)

Section AddHandlerProperties.
Variable St : Type.
Variable PushMessage : mq.Message -> St -> (string * option error) * St.
Variable UnwrapMessage : msgqueue.Message -> msgqueue.Message * option error.
Variable EncodeArgs :
  msgqueue.Message -> (string * option error) * msgqueue.Message.

Local Abbreviation handle := (add St PushMessage UnwrapMessage EncodeArgs).

End AddHandlerProperties.


(* ------------------------------------------------------------------ *)
(** ** Whole seconds *)

(** X11.  The conversion to whole seconds that [ReserveN], [Release] and
    [add] apply is exact on multiples of a second, monotone, and never
    gives more than the duration it is given (in absolute value). *)
Theorem wholeSeconds_exact_monotone :
  (forall k, wholeSeconds (k * Second) = k) /\
  (forall d1 d2, d1 <= d2 -> wholeSeconds d1 <= wholeSeconds d2) /\
  (forall d, Z.abs (wholeSeconds d * Second) <= Z.abs d).
Proof.
  unfold wholeSeconds. split; [|split].
  - intros k. apply Z.quot_mul. unfold Second; lia.
  - intros d1 d2 H. apply Z.quot_le_mono; [unfold Second; lia | exact H].
  - intros d. rewrite Z.abs_mul, <- Z.quot_abs by (unfold Second; lia).
    rewrite Z.mul_comm.
    apply Z.mul_quot_le; [apply Z.abs_nonneg | unfold Second; cbn; lia].
Qed.

Lemma wholeSeconds_exact_monotone_witness :
  90 * Second <= 90 * Second + 999999999 /\
  wholeSeconds (90 * Second) <= wholeSeconds (90 * Second + 999999999).
Proof.
  split; [cbn; lia|].
  apply (proj1 (proj2 wholeSeconds_exact_monotone)). cbn; lia.
Defined.

(* ------------------------------------------------------------------ *)
(** ** The processor, created once, and Close *)

Section LifecycleProperties.
Variable World : Type.
Variable Proc : Type.
Variable NewProcessor : Queue -> msgqueue.Options -> World -> Proc * World.
Variable StopTimeout : Proc -> Duration -> World -> option error * World.
Variable SetSync : bool -> World -> World.
Variable delQueue_CloseTimeout : Duration -> World -> option error * World.

Local Abbreviation processor := (Lifecycle.Processor World Proc NewProcessor).
Local Abbreviation close :=
  (Lifecycle.Close World Proc StopTimeout SetSync delQueue_CloseTimeout).

(** X12.  [Processor] creates the processor at the first call only: it
    leaves [q.p] set to the processor it returns, and a call made when
    [q.p] is set returns that same processor and changes nothing.  A
    [Close] that follows stops that very processor, with 30 seconds, and a
    [Close] on a queue whose processor was never asked for stops none; in
    both cases the delete queue is closed with 30 seconds in synchronous
    mode. *)
Theorem Processor_created_once_stopped_by_Close (q : Queue) (p : option Proc)
    (w : World) :
  let proc := fst (processor q p w) in
  let p1 := fst (snd (processor q p w)) in
  let w1 := snd (snd (processor q p w)) in
  p1 = Some proc /\
  processor q p1 w1 = (proc, (p1, w1)) /\
  (forall existing, p = Some existing -> proc = existing /\ w1 = w) /\
  snd (close p1 w1) =
    snd (delQueue_CloseTimeout 30000000000
           (SetSync true (snd (StopTimeout proc 30000000000 w1)))) /\
  snd (close None w) = snd (delQueue_CloseTimeout 30000000000 (SetSync true w)).
Proof.
  unfold Lifecycle.Processor, Lifecycle.Close, CloseTimeout.
  change (30 * Second) with 30000000000.
  destruct p as [existing|]; cbn.
  - repeat split.
    + congruence.
    + destruct (StopTimeout existing 30000000000 w) as [err w']; cbn.
      destruct (delQueue_CloseTimeout 30000000000 (SetSync true w')); reflexivity.
    + destruct (delQueue_CloseTimeout 30000000000 (SetSync true w)); reflexivity.
  - destruct (NewProcessor q (opt q) w) as [proc w1]; cbn.
    repeat split; try discriminate.
    + destruct (StopTimeout proc 30000000000 w1) as [err w']; cbn.
      destruct (delQueue_CloseTimeout 30000000000 (SetSync true w')); reflexivity.
    + destruct (delQueue_CloseTimeout 30000000000 (SetSync true w)); reflexivity.
Qed.
End LifecycleProperties.

(* ------------------------------------------------------------------ *)
(** ** The names of the stages *)

Lemma string_app_length (s t : string) :
  String.length (s ++ t) = (String.length s + String.length t)%nat.
Proof. induction s as [|c s IH]; cbn; [reflexivity | now rewrite IH]. Qed.

Lemma string_app_inv_tail (s1 s2 t : string) :
  (s1 ++ t = s2 ++ t)%string -> s1 = s2.
Proof.
  revert s2; induction s1 as [|c s1 IH]; intros [|c' s2] H; cbn in H.
  - reflexivity.
  - apply (f_equal String.length) in H. cbn in H.
    rewrite string_app_length in H. lia.
  - apply (f_equal String.length) in H. cbn in H.
    rewrite string_app_length in H. lia.
  - injection H as <- H. f_equal. now apply IH.
Qed.

(** No name with "-add" at its end has "-delete" at its end. *)
Lemma add_suffix_not_delete_suffix (s s' : string) :
  (s ++ "-add")%string <> (s' ++ "-delete")%string.
Proof.
  revert s'; induction s as [|c s IH]; intros s' H.
  - apply (f_equal String.length) in H.
    rewrite !string_app_length in H. cbn in H. lia.
  - destruct s' as [|c' s'].
    + destruct s as [|a [|b [|d s]]]; cbn in H; try discriminate.
      apply (f_equal String.length) in H. cbn in H.
      rewrite !string_app_length in H. cbn in H. lia.
    + cbn in H. injection H as _ H. now apply (IH s').
Qed.

(** X13.  The stage names are built from [q.opt.Name] alone.  Queues
    whose [opt.Name] differ get different add-stage names and different
    delete-stage names; no add-stage name is the delete-stage name of any
    queue; and neither stage name is the [opt.Name] it was built from. *)
Theorem stage_names_distinct :
  (forall q q' : Queue,
     msgqueue.OptName (opt q) <> msgqueue.OptName (opt q') ->
     addQueueName q <> addQueueName q' /\ delQueueName q <> delQueueName q') /\
  (forall q q' : Queue, addQueueName q <> delQueueName q') /\
  (forall q : Queue,
     addQueueName q <> msgqueue.OptName (opt q) /\
     delQueueName q <> msgqueue.OptName (opt q)).
Proof.
  unfold addQueueName, delQueueName. split; [|split].
  - intros q q' Hne. split; intros H; apply Hne; now apply string_app_inv_tail in H.
  - intros q q'. apply add_suffix_not_delete_suffix.
  - intros q. split; intros H; apply (f_equal String.length) in H;
      rewrite string_app_length in H; cbn in H; lia.
Qed.

Lemma stage_names_distinct_witness :
  msgqueue.OptName (opt Demo.theQueue) <> msgqueue.OptName (opt Cases.mailQueue) /\
  addQueueName Demo.theQueue <> addQueueName Cases.mailQueue /\
  delQueueName Demo.theQueue <> delQueueName Cases.mailQueue.
Proof.
  assert (msgqueue.OptName (opt Demo.theQueue) <>
          msgqueue.OptName (opt Cases.mailQueue)) as Hne by discriminate.
  split; [exact Hne|].
  exact (proj1 stage_names_distinct Demo.theQueue Cases.mailQueue Hne).
Defined.

(** The name of the client's queue, [q.q.Name], plays no part: a queue
    may carry the name of its own add stage, and two queues of different
    client names share their stage names when their options have the same
    name. *)
Example stage_names_ignore_client_name :
  addQueueName Cases.shadowQueue = qName Cases.shadowQueue /\
  qName Cases.shadowQueue <> qName Demo.theQueue /\
  addQueueName Cases.shadowQueue = addQueueName Demo.theQueue /\
  delQueueName Cases.shadowQueue = delQueueName Demo.theQueue.
Proof. repeat split. discriminate. Qed.

(* ------------------------------------------------------------------ *)
(** ** The timing helpers of the tests *)

Lemma wrap64_small (z : Z) : inInt64 z -> wrap64 z = z.
Proof.
  unfold inInt64, wrap64. intros H.
  rewrite Z.mod_small by lia. lia.
Qed.

Lemma durEqual_lower (d1 d2 : Duration) :
  inInt64 (d2 - d1) -> (durEqual d1 d2 = true <-> d2 <= d1).
Proof.
  intros Hsub. unfold durEqual. rewrite (wrap64_small _ Hsub).
  rewrite andb_true_iff, Z.leb_le, Z.ltb_lt. unfold Second. lia.
Qed.

(** X14.  [durEqual d1 d2] has no upper tolerance: when the subtraction
    does not overflow, it holds exactly when [d1 >= d2]; the bound of 3
    seconds is never what decides. *)
Theorem durEqual_is_at_least (d1 d2 : Duration) :
  inInt64 (d2 - d1) ->
  (durEqual d1 d2 = true <-> d2 <= d1).
Proof.
  exact (durEqual_lower d1 d2).
Qed.

Lemma durEqual_is_at_least_witness :
  inInt64 (0 - 3600 * Second) /\ durEqual (3600 * Second) 0 = true.
Proof.
  assert (inInt64 (0 - 3600 * Second)) as H by (unfold inInt64, Second; lia).
  split; [exact H|].
  apply (durEqual_is_at_least (3600 * Second) 0 H). unfold Second; lia.
Defined.

(** The loop of [testTimings] from any index. *)
Lemma testTimings_from_passed (sinces timings : list Duration) : forall i,
  Forall (fun d => 0 <= d < 2 ^ 63) sinces ->
  Forall (fun d => 0 <= d < 2 ^ 63) timings ->
  (testTimings_from i sinces timings = Passed <->
   (length timings <= length sinces)%nat /\
   forall j since timing,
     nth_error sinces j = Some since -> nth_error timings j = Some timing ->
     timing <= since).
Proof.
  revert sinces; induction timings as [|timing timings IH]; intros sinces i Hs Ht.
  - cbn. split; [intros _|reflexivity]. split; [lia|].
    intros j since timing _ Hj. now destruct j.
  - destruct sinces as [|since sinces]; cbn [testTimings_from].
    + split; [discriminate | cbn; intros [H _]; lia].
    + inversion Hs as [|? ? Hsince Hs']; subst.
      inversion Ht as [|? ? Htiming Ht']; subst.
      assert (inInt64 (timing - since)) as Hsub by (unfold inInt64; lia).
      pose proof (durEqual_lower since timing Hsub) as Hdur.
      destruct (durEqual since timing) eqn:E.
      * rewrite (IH sinces (S i) Hs' Ht'). cbn [length].
        assert (timing <= since) as Hle by (now apply Hdur).
        split; intros [Hlen Hall]; (split; [lia|]).
        -- intros [|j] s t Hsj Htj; cbn in Hsj, Htj.
           ++ congruence.
           ++ eapply Hall; eauto.
        -- intros j s t Hsj Htj. apply (Hall (S j)); assumption.
      * split; [discriminate|].
        intros [_ Hall]. specialize (Hall 0%nat since timing eq_refl eq_refl).
        apply Hdur in Hall. discriminate.
Qed.

Lemma testTimings_from_fatal (sinces timings : list Duration) : forall i n since timing,
  Forall (fun d => 0 <= d < 2 ^ 63) sinces ->
  Forall (fun d => 0 <= d < 2 ^ 63) timings ->
  testTimings_from i sinces timings = Fatal n since timing ->
  exists j, n = S (i + j) /\
    nth_error sinces j = Some since /\ nth_error timings j = Some timing /\
    since < timing.
Proof.
  revert sinces; induction timings as [|t timings IH];
    intros sinces i n since timing Hs Ht; [discriminate|].
  destruct sinces as [|s sinces]; cbn [testTimings_from]; [discriminate|].
  inversion Hs as [|? ? Hsince Hs']; subst.
  inversion Ht as [|? ? Htiming Ht']; subst.
  assert (inInt64 (t - s)) as Hsub by (unfold inInt64; lia).
  pose proof (durEqual_lower s t Hsub) as Hdur.
  destruct (durEqual s t) eqn:E.
  - intros H. destruct (IH sinces (S i) n since timing Hs' Ht' H)
      as (j & -> & Hsj & Htj & Hlt).
    exists (S j). repeat split; auto; lia.
  - intros [= <- <- <-]. exists 0%nat. repeat split; [lia|].
    destruct (Z.lt_ge_cases s t) as [Hlt | Hge]; [exact Hlt|].
    apply Hdur in Hge. discriminate.
Qed.

(** X15.  [testTimings] checks earliness only.  For timings and arrival
    offsets that are durations (from 0, within [int64]), it runs through
    exactly when the channel delivers a time for every wanted timing and
    none of them is earlier than wanted, however late; and when it stops
    with [t.Fatalf] at timing number [n], the arrival at that position was
    earlier than wanted. *)
Theorem testTimings_accepts_any_lateness (sinces timings : list Duration) :
  Forall (fun d => 0 <= d < 2 ^ 63) sinces ->
  Forall (fun d => 0 <= d < 2 ^ 63) timings ->
  (testTimings sinces timings = Passed <->
   (length timings <= length sinces)%nat /\
   forall j since timing,
     nth_error sinces j = Some since -> nth_error timings j = Some timing ->
     timing <= since) /\
  (forall n since timing,
     testTimings sinces timings = Fatal n since timing ->
     (1 <= n)%nat /\
     nth_error sinces (n - 1) = Some since /\
     nth_error timings (n - 1) = Some timing /\
     since < timing).
Proof.
  intros Hs Ht. split.
  - apply testTimings_from_passed; assumption.
  - intros n since timing H.
    destruct (testTimings_from_fatal sinces timings 0 n since timing Hs Ht H)
      as (j & -> & Hsj & Htj & Hlt).
    cbn [Nat.add]. replace (S j - 1)%nat with j by lia.
    repeat split; auto; lia.
Qed.

Lemma testTimings_accepts_any_lateness_witness :
  Forall (fun d => 0 <= d < 2 ^ 63) [100 * Second; 200 * Second; 300 * Second] /\
  Forall (fun d => 0 <= d < 2 ^ 63) [0; Second; 3 * Second] /\
  testTimings [100 * Second; 200 * Second; 300 * Second] [0; Second; 3 * Second] =
    Passed.
Proof.
  assert (Forall (fun d => 0 <= d < 2 ^ 63)
            [100 * Second; 200 * Second; 300 * Second]) as Hs
      by (repeat constructor; unfold Second; lia).
  assert (Forall (fun d => 0 <= d < 2 ^ 63) [0; Second; 3 * Second]) as Ht
      by (repeat constructor; unfold Second; lia).
  split; [exact Hs|]. split; [exact Ht|].
  apply (testTimings_accepts_any_lateness _ _ Hs Ht).
  split; [cbn; lia|].
  intros [|[|[|j]]] since timing Hsj Htj; cbn in Hsj, Htj;
    try (destruct j; discriminate);
    inversion Hsj; inversion Htj; unfold Second in *; lia.
Defined.

(** An arrival before the wanted time is the only thing that fails. *)
Example testTimings_early :
  testTimings [0; 999999999] [0; Second; 3 * Second] = Fatal 2 999999999 Second /\
  testTimings [0; Second] [0; Second; 3 * Second] = Blocked 3.
Proof. split; reflexivity. Qed.
